(** * page_loader.loading_handler.html_parser

    A shallow embedding of [src/page_loader/loading_handler/html_parser.py]
    and of the library functions it calls, with the properties of the
    resource discovery and rewriting pipeline.

    Conventions of the embedding.
    - A Python [str] is a [string]; its characters are the code points
      below 256.  On that range [urllib.parse._checknetloc] never raises
      (NFKC normalisation produces none of [/?#@:] there), so it is left out.
    - A Python exception is a value of [exception]; a function that can
      raise returns a [result].
    - [urllib.parse] follows CPython 3.10 ([Lib/urllib/parse.py]), with
      [allow_fragments] at its default [True], as at every call site.
      Later releases of [urlsplit] first strip the C0 control characters
      and the spaces a URL starts with; where a property gives the resolved
      URL of a relative path in full, it is stated for a path that starts
      with no such character ([starts_clean]), on which the releases agree.
    - The parse tree of [bs4] is a rose tree; a tag object is referred to by
      its position in the tree ([ref]), and [tag[attr] = v] updates the tree
      at that position.
    - [os.path] is [posixpath] or [ntpath], depending on the host.
    - Calls of the logger have no effect on the results and are left out.
      [parse_page] only chains [requests.get], [search_resources] and
      [save_resources]; the properties are about these. *)

From stdpp Require Import base list strings gmap.
From Stdlib Require Import ZArith Lia Ascii.

Local Open Scope Z_scope.

(** ** Exceptions *)

Inductive exception := KeyError | ValueError | RequestException | OSError.

Inductive result (A : Type) : Type :=
| Ok (a : A)
| Raise (e : exception).
Arguments Ok {A} a.
Arguments Raise {A} e.

#[global] Instance result_ret : MRet result := fun A a => Ok a.
#[global] Instance result_bind : MBind result := fun A B k m =>
  match m with
  | Ok a => k a
  | Raise e => Raise e
  end.

#[global] Instance result_fmap : FMap result := fun A B f m =>
  match m with
  | Ok a => Ok (f a)
  | Raise e => Raise e
  end.

(** [for x in l: s = body(x, s)], stopping at the first exception. *)
Fixpoint for_each {A S : Type} (l : list A) (body : A -> S -> result S) (s : S)
  : result S :=
  match l with
  | [] => Ok s
  | x :: l' => s' ← body x s; for_each l' body s'
  end.

(** ** Python [str] methods *)

Module Str.

Fixpoint take (n : nat) (s : string) : string :=
  match n, s with
  | S n', String c s' => String c (take n' s')
  | _, _ => ""
  end.

Fixpoint drop (n : nat) (s : string) : string :=
  match n, s with
  | S n', String _ s' => drop n' s'
  | _, _ => s
  end.

(** [len(s)] *)
Definition len (s : string) : Z := Z.of_nat (String.length s).

(** [s[a:b]], [s[a:]] and [s[:b]] for [0 <= a] and [0 <= b]. *)
Definition slice (s : string) (a b : Z) : string :=
  take (Z.to_nat (b - a)) (drop (Z.to_nat a) s).
Definition slice_from (s : string) (a : Z) : string := drop (Z.to_nat a) s.
Definition slice_to (s : string) (b : Z) : string := take (Z.to_nat b) s.

Fixpoint index_of (c : ascii) (s : string) : option nat :=
  match s with
  | "" => None
  | String d s' => if Ascii.eqb d c then Some O else S <$> index_of c s'
  end.

Fixpoint rindex_of (c : ascii) (s : string) : option nat :=
  match s with
  | "" => None
  | String d s' =>
      match rindex_of c s' with
      | Some i => Some (S i)
      | None => if Ascii.eqb d c then Some O else None
      end
  end.

(** [s.find(c, start)], [-1] when [c] does not occur. *)
Definition find (s : string) (c : ascii) (start : Z) : Z :=
  match index_of c (slice_from s start) with
  | Some i => start + Z.of_nat i
  | None => -1
  end.

(** [s.rfind(c)] *)
Definition rfind (s : string) (c : ascii) : Z :=
  match rindex_of c s with
  | Some i => Z.of_nat i
  | None => -1
  end.

(** [c in s] *)
Fixpoint contains (c : ascii) (s : string) : bool :=
  match s with
  | "" => false
  | String d s' => Ascii.eqb d c || contains c s'
  end.

(** [s.replace(c, "")] *)
Fixpoint remove (c : ascii) (s : string) : string :=
  match s with
  | "" => ""
  | String d s' => if Ascii.eqb d c then remove c s' else String d (remove c s')
  end.

(** [s.split(sep)] *)
Fixpoint split (sep : ascii) (s : string) : list string :=
  match s with
  | "" => [""]
  | String c s' =>
      if Ascii.eqb c sep then "" :: split sep s'
      else match split sep s' with
           | h :: t => String c h :: t
           | [] => [String c ""]
           end
  end.

(** [s.split(sep, 1)] for a string that contains [sep]: the text before
    the first [sep] and the text after it. *)
Fixpoint split1 (sep : ascii) (s : string) : string * string :=
  match s with
  | "" => ("", "")
  | String c s' =>
      if Ascii.eqb c sep then ("", s')
      else let '(a, b) := split1 sep s' in (String c a, b)
  end.

(** [sep.join(l)] *)
Fixpoint join (sep : string) (l : list string) : string :=
  match l with
  | [] => ""
  | [x] => x
  | x :: l' => x +:+ sep +:+ join sep l'
  end.

Definition lower_char (c : ascii) : ascii :=
  let n := Ascii.nat_of_ascii c in
  if (((65 <=? n) && (n <=? 90))
      || ((192 <=? n) && (n <=? 222) && negb (n =? 215)))%nat
  then Ascii.ascii_of_nat (n + 32) else c.

(** [s.lower()] *)
Fixpoint lower (s : string) : string :=
  match s with
  | "" => ""
  | String c s' => String (lower_char c) (lower s')
  end.

Fixpoint all (p : ascii -> bool) (s : string) : bool :=
  match s with
  | "" => true
  | String c s' => p c && all p s'
  end.

(** [s.startswith(c)] and [s.endswith(c)] for a one-character [c]. *)
Definition startswith (s : string) (c : ascii) : bool :=
  match s with
  | String d _ => Ascii.eqb d c
  | "" => false
  end.

Fixpoint endswith (s : string) (c : ascii) : bool :=
  match s with
  | "" => false
  | String d "" => Ascii.eqb d c
  | String _ s' => endswith s' c
  end.

(** [not s] *)
Definition is_empty (s : string) : bool :=
  match s with "" => true | _ => false end.

(** [s.replace(c, d)] for one-character [c] and [d]. *)
Fixpoint replace (c d : ascii) (s : string) : string :=
  match s with
  | "" => ""
  | String e s' => String (if Ascii.eqb e c then d else e) (replace c d s')
  end.

Fixpoint map (f : ascii -> ascii) (s : string) : string :=
  match s with
  | "" => ""
  | String c s' => String (f c) (map f s')
  end.

(** [s[-1:]] *)
Fixpoint last1 (s : string) : string :=
  match s with
  | "" => ""
  | String c "" => String c ""
  | String _ s' => last1 s'
  end.

End Str.

(** [x in l] for a list of strings. *)
Definition str_in (x : string) (l : list string) : bool :=
  existsb (String.eqb x) l.

(** ** [urllib.parse] *)

Definition uses_relative : list string :=
  [""; "ftp"; "http"; "gopher"; "nntp"; "imap"; "wais"; "file"; "https";
   "shttp"; "mms"; "prospero"; "rtsp"; "rtspu"; "sftp"; "svn"; "svn+ssh";
   "ws"; "wss"].

Definition uses_netloc : list string :=
  [""; "ftp"; "http"; "gopher"; "nntp"; "telnet"; "imap"; "wais"; "file";
   "mms"; "https"; "shttp"; "snews"; "prospero"; "rtsp"; "rtspu"; "rsync";
   "svn"; "svn+ssh"; "sftp"; "nfs"; "git"; "git+ssh"; "ws"; "wss"].

Definition uses_params : list string :=
  [""; "ftp"; "hdl"; "prospero"; "http"; "imap"; "https"; "shttp"; "rtsp";
   "rtspu"; "sip"; "sips"; "mms"; "sftp"; "tel"].

Definition scheme_chars : string :=
  "abcdefghijklmnopqrstuvwxyzABCDEFGHIJKLMNOPQRSTUVWXYZ0123456789+-.".

(** Tab, carriage return and line feed. *)
Definition _UNSAFE_URL_BYTES_TO_REMOVE : list ascii :=
  [Ascii.ascii_of_nat 9; Ascii.ascii_of_nat 13; Ascii.ascii_of_nat 10].

Record SplitResult := mkSplitResult {
  split_scheme : string;
  split_netloc : string;
  split_path : string;
  split_query : string;
  split_fragment : string
}.

Record ParseResult := mkParseResult {
  scheme : string;
  netloc : string;
  path : string;
  params : string;
  query : string;
  fragment : string
}.

Definition _splitnetloc (url : string) (start : Z) : string * string :=
  let delim :=
    fold_left
      (fun delim c =>
         let wdelim := Str.find url c start in
         if wdelim >=? 0 then Z.min delim wdelim else delim)
      ["/"; "?"; "#"]%char (Str.len url) in
  (Str.slice url start delim, Str.slice_from url delim).

Definition _splitparams (url : string) : string * string :=
  if Str.contains "/" url then
    let i := Str.find url ";" (Str.rfind url "/") in
    if i <? 0 then (url, "")
    else (Str.slice_to url i, Str.slice_from url (i + 1))
  else
    let i := Str.find url ";" 0 in
    (Str.slice_to url i, Str.slice_from url (i + 1)).

(** [for b in _UNSAFE_URL_BYTES_TO_REMOVE: s = s.replace(b, "")] *)
Definition remove_unsafe_bytes (s : string) : string :=
  fold_left (fun s b => Str.remove b s) _UNSAFE_URL_BYTES_TO_REMOVE s.

(** The test of [urlsplit] for an invalid IPv6 URL. *)
Definition unbalanced_brackets (netloc : string) : bool :=
  (Str.contains "[" netloc && negb (Str.contains "]" netloc))
  || (Str.contains "]" netloc && negb (Str.contains "[" netloc)).

Definition urlsplit (url scheme : string) : result SplitResult :=
  let url := remove_unsafe_bytes url in
  let scheme := remove_unsafe_bytes scheme in
  let i := Str.find url ":" 0 in
  let '(scheme, url) :=
    if (i >? 0)
       && Str.all (fun c => Str.contains c scheme_chars) (Str.slice_to url i)
    then (Str.lower (Str.slice_to url i), Str.slice_from url (i + 1))
    else (scheme, url) in
  '(netloc, url) ←
    (if String.eqb (Str.slice_to url 2) "//" then
       let '(netloc, url) := _splitnetloc url 2 in
       if unbalanced_brackets netloc then Raise ValueError
       else Ok (netloc, url)
     else Ok ("", url));
  let '(url, fragment) :=
    if Str.contains "#" url then Str.split1 "#" url else (url, "") in
  let '(url, query) :=
    if Str.contains "?" url then Str.split1 "?" url else (url, "") in
  Ok (mkSplitResult scheme netloc url query fragment).

Definition urlparse (url scheme : string) : result ParseResult :=
  '(mkSplitResult scheme netloc url query fragment) ← urlsplit url scheme;
  let '(url, params) :=
    if str_in scheme uses_params && Str.contains ";" url
    then _splitparams url
    else (url, "") in
  Ok (mkParseResult scheme netloc url params query fragment).

Definition urlunsplit (scheme netloc url query fragment : string) : string :=
  let url :=
    if negb (Str.is_empty netloc)
       || (negb (Str.is_empty scheme) && str_in scheme uses_netloc
           && negb (String.eqb (Str.slice_to url 2) "//"))
    then
      let url :=
        if negb (Str.is_empty url) && negb (String.eqb (Str.slice_to url 1) "/")
        then "/" +:+ url else url in
      "//" +:+ netloc +:+ url
    else url in
  let url := if negb (Str.is_empty scheme) then scheme +:+ ":" +:+ url else url in
  let url := if negb (Str.is_empty query) then url +:+ "?" +:+ query else url in
  let url := if negb (Str.is_empty fragment) then url +:+ "#" +:+ fragment else url in
  url.

Definition urlunparse (r : ParseResult) : string :=
  let url :=
    if negb (Str.is_empty (params r)) then path r +:+ ";" +:+ params r
    else path r in
  urlunsplit (scheme r) (netloc r) url (query r) (fragment r).

(** [segments[1:-1] = filter(None, segments[1:-1])] *)
Definition filter_middle (segments : list string) : list string :=
  match segments with
  | [] => []
  | first :: rest =>
      match reverse rest with
      | [] => [first]
      | last :: middle_rev =>
          first
            :: List.filter (fun s => negb (Str.is_empty s)) (reverse middle_rev)
            ++ [last]
      end
  end.

(** The loop of [urljoin] over the segments, on the stack [resolved_path]. *)
Fixpoint resolve_segments (segments resolved_path : list string) : list string :=
  match segments with
  | [] => resolved_path
  | seg :: segments' =>
      if String.eqb seg ".." then
        resolve_segments segments' (removelast resolved_path)
      else if String.eqb seg "." then
        resolve_segments segments' resolved_path
      else
        resolve_segments segments' (resolved_path ++ [seg])
  end.

Definition urljoin (base url : string) : result string :=
  if Str.is_empty base then Ok url
  else if Str.is_empty url then Ok base
  else
    '(mkParseResult bscheme bnetloc bpath bparams bquery bfragment) ←
      urlparse base "";
    '(mkParseResult scheme netloc path params query fragment) ←
      urlparse url bscheme;
    if negb (String.eqb scheme bscheme) || negb (str_in scheme uses_relative)
    then Ok url
    else if str_in scheme uses_netloc && negb (Str.is_empty netloc) then
      Ok (urlunparse (mkParseResult scheme netloc path params query fragment))
    else
      let netloc := if str_in scheme uses_netloc then bnetloc else netloc in
      if Str.is_empty path && Str.is_empty params then
        let query := if Str.is_empty query then bquery else query in
        Ok (urlunparse (mkParseResult scheme netloc bpath bparams query fragment))
      else
        let base_parts := Str.split "/" bpath in
        let base_parts :=
          if negb (String.eqb (List.last base_parts "") "")
          then removelast base_parts else base_parts in
        let segments :=
          if String.eqb (Str.slice_to path 1) "/" then Str.split "/" path
          else filter_middle (base_parts ++ Str.split "/" path) in
        let resolved_path := resolve_segments segments [] in
        let resolved_path :=
          if String.eqb (List.last segments "") "."
             || String.eqb (List.last segments "") ".."
          then resolved_path ++ [""] else resolved_path in
        let joined := Str.join "/" resolved_path in
        Ok (urlunparse
              (mkParseResult scheme netloc
                 (if Str.is_empty joined then "/" else joined)
                 params query fragment))
  .

(** ** [os.path] *)

Inductive os_name := posix | nt.

(** [posixpath.join(a, b)] *)
Definition posix_join (a b : string) : string :=
  if Str.startswith b "/" then b
  else if Str.is_empty a || Str.endswith a "/" then a +:+ b
  else a +:+ "/" +:+ b.

(** [ntpath.splitdrive(p)] *)
Definition nt_splitdrive (p : string) : string * string :=
  if Str.len p >=? 2 then
    let normp := Str.replace "/" "\" p in
    if String.eqb (Str.slice normp 0 2) "\\"
       && negb (String.eqb (Str.slice normp 2 3) "\")
    then
      let index := Str.find normp "\" 2 in
      if index =? -1 then ("", p)
      else
        let index2 := Str.find normp "\" (index + 1) in
        if index2 =? index + 1 then ("", p)
        else
          let index2 := if index2 =? -1 then Str.len p else index2 in
          (Str.slice_to p index2, Str.slice_from p index2)
    else if String.eqb (Str.slice normp 1 2) ":" then
      (Str.slice_to p 2, Str.slice_from p 2)
    else ("", p)
  else ("", p).

(** [c in '\\/'] for the first or the last character [c] of a string. *)
Definition nt_is_sep (c : string) : bool :=
  String.eqb c "\" || String.eqb c "/".

(** [ntpath.join(path, p)] *)
Definition nt_join (path p : string) : string :=
  let '(result_drive, result_path) := nt_splitdrive path in
  let '(p_drive, p_path) := nt_splitdrive p in
  let '(result_drive, result_path) :=
    if negb (Str.is_empty p_path) && nt_is_sep (Str.slice_to p_path 1) then
      ((if negb (Str.is_empty p_drive) || Str.is_empty result_drive
        then p_drive else result_drive),
       p_path)
    else if negb (Str.is_empty p_drive)
            && negb (String.eqb p_drive result_drive)
            && negb (String.eqb (Str.lower p_drive) (Str.lower result_drive))
    then (p_drive, p_path)
    else
      let result_drive :=
        if negb (Str.is_empty p_drive) && negb (String.eqb p_drive result_drive)
        then p_drive else result_drive in
      let result_path :=
        if negb (Str.is_empty result_path)
           && negb (nt_is_sep (Str.last1 result_path))
        then result_path +:+ "\" else result_path in
      (result_drive, result_path +:+ p_path) in
  if negb (Str.is_empty result_path)
     && negb (nt_is_sep (Str.slice_to result_path 1))
     && negb (Str.is_empty result_drive)
     && negb (String.eqb (Str.last1 result_drive) ":")
  then result_drive +:+ "\" +:+ result_path
  else result_drive +:+ result_path.

(** [os.path.join(a, b)] on the host [os]. *)
Definition os_path_join (os : os_name) (a b : string) : string :=
  match os with
  | posix => posix_join a b
  | nt => nt_join a b
  end.

(** [posixpath.splitext(p)] *)
Definition splitext (p : string) : string * string :=
  let sepIndex := Str.rfind p "/" in
  let dotIndex := Str.rfind p "." in
  if (dotIndex >? sepIndex)
     && negb (Str.all (Ascii.eqb ".") (Str.slice p (sepIndex + 1) dotIndex))
  then (Str.slice_to p dotIndex, Str.slice_from p dotIndex)
  else (p, "").

(** ** [bs4]: the parse tree *)

(** An element of the tree: a tag with its attribute dictionary and its
    contents, or a piece of text. *)
#[warnings="-register-all"]
Inductive PageElement :=
| Tag (name : string) (attrs : gmap string string) (contents : list PageElement)
| NavigableString (text : string).

(** The document object, given by its top-level contents.  It stands for
    [BeautifulSoup(html, 'html.parser')]; the tree returned by the
    transformation stands for the text [soup.prettify()] serialises. *)
Abbreviation BeautifulSoup := (list PageElement).

(** A reference to an element: the child indices on the way from the
    document to it. *)
Abbreviation ref := (list nat).

Fixpoint flat_mapi {A B : Type} (f : nat -> A -> list B) (i : nat) (l : list A)
  : list B :=
  match l with
  | [] => []
  | x :: l' => f i x ++ flat_mapi f (S i) l'
  end.

(** The tags below (and including) [e] that satisfy [p], in document order,
    by their references relative to [e]. *)
Fixpoint find_elem (p : string -> bool) (e : PageElement) : list ref :=
  match e with
  | Tag name _ contents =>
      (if p name then [[]] else [])
      ++ flat_mapi (fun i c => cons i <$> find_elem p c) O contents
  | NavigableString _ => []
  end.

Definition find_tags (p : string -> bool) (soup : BeautifulSoup) : list ref :=
  flat_mapi (fun i c => cons i <$> find_elem p c) O soup.

(** [soup.find_all(name)]: the tags called [name], in document order. *)
Definition find_all (soup : BeautifulSoup) (name : string) : list ref :=
  find_tags (String.eqb name) soup.

Fixpoint deref (contents : list PageElement) (r : ref) : option PageElement :=
  match r with
  | [] => None
  | i :: r' =>
      match contents !! i with
      | None => None
      | Some e =>
          match r', e with
          | [], _ => Some e
          | _, Tag _ _ contents' => deref contents' r'
          | _, NavigableString _ => None
          end
      end
  end.

Definition set_attr (key value : string) (e : PageElement) : PageElement :=
  match e with
  | Tag name attrs contents => Tag name (<[key := value]> attrs) contents
  | NavigableString _ => e
  end.

Fixpoint alter_ref (f : PageElement -> PageElement) (r : ref)
    (contents : list PageElement) : list PageElement :=
  match r with
  | [] => contents
  | i :: r' =>
      alter (fun e =>
               match r', e with
               | [], _ => f e
               | _, Tag name attrs contents' =>
                   Tag name attrs (alter_ref f r' contents')
               | _, NavigableString _ => e
               end) i contents
  end.

(** [tag[key] = value] *)
Definition setitem (soup : BeautifulSoup) (tag : ref) (key value : string)
  : BeautifulSoup :=
  alter_ref (set_attr key value) tag soup.

(** [d[key]] for a dictionary or a table of pairs *)
Definition getitem (attrs : gmap string string) (key : string) : result string :=
  match attrs !! key with
  | Some v => Ok v
  | None => Raise KeyError
  end.

Fixpoint table_getitem (table : list (string * string)) (key : string)
  : result string :=
  match table with
  | [] => Raise KeyError
  | (k, v) :: table' => if String.eqb k key then Ok v else table_getitem table' key
  end.

(** ** [page_loader.loading_handler.file_system_guide] *)

(** The dictionary [parse_url] returns, with its keys ['netloc'], ['path']
    and ['ext'] as [create_resource_name] reads them. *)
Record ParsedUrl := mkParsedUrl {
  parsed_netloc : string;
  parsed_path : string;
  parsed_ext : string
}.

(** Modelled from the spec: the alphanumeric characters of the naming rule
    of [parse_url], taken to be the ASCII letters and digits. *)
Definition isalnum (c : ascii) : bool :=
  let n := Ascii.nat_of_ascii c in
  (((48 <=? n) && (n <=? 57)) || ((65 <=? n) && (n <=? 90))
   || ((97 <=? n) && (n <=? 122)))%nat.

(** Modelled from the spec: the replacement of the naming rule of
    [parse_url], every character that is not alphanumeric becomes a
    hyphen. *)
Definition hyphenate (s : string) : string :=
  Str.map (fun c => if isalnum c then c else "-"%char) s.

(** Modelled from the spec: the constant [HTML_EXT], which
    [file_system_guide] defines and the sources do not include.  The spec
    names [html] as the default extension of a resource name. *)
Definition HTML_EXT : string := "html".

(** Modelled from the spec: the helper [parse_url], which
    [file_system_guide] defines and the sources do not include.  By the spec
    a resource is named after the host and the path of its link, without the
    scheme, with every character that is not alphanumeric replaced by a
    hyphen, and keeps the file extension of the path when it has a
    recognizable one.  [create_resource_name] puts a hyphen between the host
    and the path, in the place of the slash the path starts with, and a dot
    before the extension.  A recognizable extension is taken to be the one
    [os.path.splitext] finds. *)
Definition parse_url (url : string) : result ParsedUrl :=
  parsed ← urlparse url "";
  let '(root, ext) := splitext (path parsed) in
  let root := if Str.startswith root "/" then Str.slice_from root 1 else root in
  Ok (mkParsedUrl (hyphenate (netloc parsed)) (hyphenate root)
        (Str.slice_from ext 1)).

(** ** [html_parser] *)

Definition TAGS_LINK_ATTRIBUTES : list (string * string) :=
  [("img", "src"); ("link", "href"); ("script", "src")].

(** [DOMAIN_ADDRESS.format(scheme, netloc)] *)
Definition DOMAIN_ADDRESS (scheme netloc : string) : string :=
  scheme +:+ "://" +:+ netloc.

Record Resource := mkResource {
  link : string;
  name : string
}.

Definition get_full_link (link page_url : string) : result string :=
  page_scheme ← scheme <$> urlparse page_url "";
  page_netloc ← netloc <$> urlparse page_url "";
  let url_domain_address := DOMAIN_ADDRESS page_scheme page_netloc in
  rsc_netloc ← netloc <$> urlparse link "";
  if Str.is_empty rsc_netloc then urljoin url_domain_address link
  else Ok link.

Definition is_local_link (link page_url : string) : result bool :=
  rsc_netloc ← netloc <$> urlparse link "";
  url_netloc ← netloc <$> urlparse page_url "";
  Ok (String.eqb rsc_netloc url_netloc).

Definition create_resource_name (link : string) : result string :=
  parsed_resource_link ← parse_url link;
  let netloc := parsed_netloc parsed_resource_link in
  let path := parsed_path parsed_resource_link in
  let ext := parsed_ext parsed_resource_link in
  let ext := if negb (Str.is_empty ext) then ext else HTML_EXT in
  Ok (netloc +:+ "-" +:+ path +:+ "." +:+ ext).

(** The world [save_resources] acts on: the requests sent and the files
    written, in the order they happened. *)
Record Response := mkResponse {
  status_code : Z;
  content : string
}.

Inductive event :=
| Requested (url : string)
| Written (path : string) (content : string).

(** A computation that extends the trace of events and returns or raises. *)
Definition io (A : Type) : Type := list event -> result A * list event.

#[global] Instance io_ret : MRet io := fun A a trace => (Ok a, trace).
#[global] Instance io_bind : MBind io := fun A B k m trace =>
  match m trace with
  | (Ok a, trace') => k a trace'
  | (Raise e, trace') => (Raise e, trace')
  end.

Section html_parser.

(** The host the program runs on. *)
Variable os : os_name.

(** [get_dir_name] of [file_system_guide], which the sources do not
    include: the name of the resource directory of a page. *)
Variable get_dir_name : string -> string.

(** [requests.get(url)]: the response of the server, whatever its status,
    or an exception when no response was obtained. *)
Variable requests_get : string -> result Response.

(** [with open(path, 'wb') as file: file.write(content)]: succeeds or
    raises, depending on the file system. *)
Variable write_binary : string -> string -> result unit.

(** The body of the inner loop of [search_resources], for the tag object
    [tag].  Its last case is not reached: [find_all] returns references to
    tags of the tree ([find_tags_deref]). *)
Definition process_tag (page_url dir_name : string) (tag : ref)
    (state : BeautifulSoup * list Resource)
  : result (BeautifulSoup * list Resource) :=
  let '(soup, resources) := state in
  match deref soup tag with
  | Some (Tag tag_name attrs _) =>
      link_attr ← table_getitem TAGS_LINK_ATTRIBUTES tag_name;
      raw ← getitem attrs link_attr;
      link ← get_full_link raw page_url;
      is_local ← is_local_link link page_url;
      if is_local : bool then
        resource_name ← create_resource_name link;
        let soup :=
          setitem soup tag link_attr (os_path_join os dir_name resource_name) in
        let resource := mkResource link resource_name in
        Ok (soup, resources ++ [resource])
      else Ok (soup, resources)
  | _ => Ok (soup, resources)
  end.

Definition search_resources (soup : BeautifulSoup) (page_url : string)
  : result (BeautifulSoup * list Resource) :=
  let dir_name := get_dir_name page_url in
  for_each TAGS_LINK_ATTRIBUTES.*1
    (fun resource_tag '(soup, resources) =>
       for_each (find_all soup resource_tag)
         (process_tag page_url dir_name) (soup, resources))
    (soup, []).

Definition get_content (url : string) : io string :=
  fun trace => (content <$> requests_get url, trace ++ [Requested url]).

Definition write_file (path content : string) : io unit :=
  fun trace =>
    match write_binary path content with
    | Ok _ => (Ok (), trace ++ [Written path content])
    | Raise e => (Raise e, trace)
    end.

Fixpoint save_resources (resources : list Resource) (dir_path : string)
  : io unit :=
  match resources with
  | [] => mret ()
  | resource :: resources' =>
      content ← get_content (link resource);
      let resource_path := os_path_join os dir_path (name resource) in
      _ ← write_file resource_path content;
      save_resources resources' dir_path
  end.

End html_parser.

(** ** [parse_page] *)

(** [return r] or [raise e], without an event. *)
Definition lift_result {A : Type} (r : result A) : io A :=
  fun trace => (r, trace).

Section parse_page.

Variable os : os_name.
Variable get_dir_name : string -> string.
Variable requests_get : string -> result Response.
Variable write_binary : string -> string -> result unit.

(** [page.text]: the body of a response, decoded. *)
Variable response_text : Response -> string.

(** [BeautifulSoup(html, 'html.parser')] and [soup.prettify()], which
    [search_resources] calls before and after its loops. *)
Variable html_parser : string -> BeautifulSoup.
Variable prettify : BeautifulSoup -> string.

(** [requests.get(url)], as an event. *)
Definition get_page (url : string) : io Response :=
  fun trace => (requests_get url, trace ++ [Requested url]).

Definition parse_page (url dir_path : string) : io string :=
  page ← get_page url;
  '(soup, resources) ←
    lift_result
      (search_resources os get_dir_name (html_parser (response_text page)) url);
  _ ← save_resources os requests_get write_binary resources dir_path;
  mret (prettify soup).

End parse_page.

(** * Vocabulary of the properties *)

(** A network location as [urlsplit] emits it: free of the delimiters that
    end it and of the characters [urlsplit] removes, with balanced
    brackets. *)
Definition netloc_ok (n : string) : Prop :=
  Str.contains "/" n = false /\ Str.contains "?" n = false
  /\ Str.contains "#" n = false
  /\ unbalanced_brackets n = false
  /\ Forall (fun b => Str.contains b n = false) _UNSAFE_URL_BYTES_TO_REMOVE.

(** The text that may follow a network location in a URL: nothing, or
    something that starts with [/], [?] or [#]. *)
Definition delimited (rest : string) : Prop :=
  match rest with
  | "" => True
  | String c _ => c = "/"%char \/ c = "?"%char \/ c = "#"%char
  end.

(** A path segment that URL joining leaves as it is: not empty, not [.] and
    not [..]. *)
Definition plain_segment (seg : string) : Prop :=
  seg ≠ "" /\ seg ≠ "." /\ seg ≠ "..".

(** A relative path of plain segments, free of the characters that mark a
    scheme, a query, a fragment or parameters, and of the characters
    [urlsplit] removes. *)
Definition plain_path (rel : string) : Prop :=
  Forall (fun c => Str.contains c rel = false)
    ([":"; "?"; "#"; ";"]%char ++ _UNSAFE_URL_BYTES_TO_REMOVE)
  /\ Forall plain_segment (Str.split "/" rel).

(** The characters that later releases of [urlsplit] strip from the start
    of a URL ([_WHATWG_C0_CONTROL_OR_SPACE]): the C0 control characters and
    the space. *)
Definition c0_control_or_space (c : ascii) : bool :=
  (Ascii.nat_of_ascii c <=? 32)%nat.

(** A URL that starts with none of them. *)
Definition starts_clean (url : string) : Prop :=
  match url with
  | "" => True
  | String c _ => c0_control_or_space c = false
  end.

(** The root of a path as [parse_url] names it: without the slash it starts
    with. *)
Definition without_root_slash (root : string) : string :=
  if Str.startswith root "/" then Str.slice_from root 1 else root.

(** A file name in the portable character set of POSIX (letters, digits,
    [.], [_] and [-]) that is not empty and is neither [.] nor [..]: a name
    every host accepts for a file, up to its length. *)
Definition portable_char (c : ascii) : bool :=
  Str.contains c
    "ABCDEFGHIJKLMNOPQRSTUVWXYZabcdefghijklmnopqrstuvwxyz0123456789._-".

Definition portable_filename (name : string) : Prop :=
  name ≠ "" /\ name ≠ "." /\ name ≠ ".."
  /\ Str.all portable_char name = true.

(** A well-formed page URL: one the parser accepts, with the scheme [http]
    or [https] and a host. *)
Definition well_formed_page (page_url : string) (p : ParseResult) : Prop :=
  urlparse page_url "" = Ok p
  /\ (scheme p = "http" \/ scheme p = "https")
  /\ netloc p ≠ "".

(** The name and the attributes of the tag a reference points to. *)
Definition elem_info (e : PageElement) : option (string * gmap string string) :=
  match e with
  | Tag tag_name attrs _ => Some (tag_name, attrs)
  | NavigableString _ => None
  end.

Definition tag_info (soup : BeautifulSoup) (tag : ref)
  : option (string * gmap string string) :=
  deref soup tag ≫= elem_info.

(** [deref] and [find_elem], relative to an element. *)
Definition deref_in (e : PageElement) (r : ref) : option PageElement :=
  match r, e with
  | [], _ => Some e
  | _, Tag _ _ contents => deref contents r
  | _, NavigableString _ => None
  end.

(** The tags [search_resources] visits, in the order it visits them: kind
    by kind in the order of the table, in document order within a kind. *)
Definition visit_order (soup : BeautifulSoup) : list ref :=
  find_all soup "img" ++ find_all soup "link" ++ find_all soup "script".

(** The tags of the three kinds together, in document order. *)
Definition document_order (soup : BeautifulSoup) : list ref :=
  find_tags (fun tag_name => str_in tag_name TAGS_LINK_ATTRIBUTES.*1) soup.

(** What becomes of a raw link: the resource to fetch for a local link,
    nothing for a link that is not local. *)
Definition local_resource (page_url raw : string) : result (option Resource) :=
  link ← get_full_link raw page_url;
  is_local ← is_local_link link page_url;
  if is_local : bool then
    resource_name ← create_resource_name link;
    Ok (Some (mkResource link resource_name))
  else Ok None.

(** What becomes of the link of a tag with the given name and attributes. *)
Definition info_resource (page_url : string)
    (info : string * gmap string string) : result (option Resource) :=
  link_attr ← table_getitem TAGS_LINK_ATTRIBUTES info.1;
  raw ← getitem info.2 link_attr;
  local_resource page_url raw.

Definition tag_resource (page_url : string) (soup : BeautifulSoup) (tag : ref)
  : result (option Resource) :=
  match tag_info soup tag with
  | Some info => info_resource page_url info
  | None => Ok None
  end.

(** [[f(x) for x in l]], stopping at the first exception. *)
Fixpoint collect {A B : Type} (f : A -> result B) (l : list A) : result (list B) :=
  match l with
  | [] => Ok []
  | x :: l' => y ← f x; ys ← collect f l'; Ok (y :: ys)
  end.

(** The values that are there, in order. *)
Definition somes {A : Type} (l : list (option A)) : list A :=
  omap (M := list) id l.

(** The resources of the tags [order], in that order. *)
Definition resources_of (page_url : string) (soup : BeautifulSoup)
    (order : list ref) : result (list Resource) :=
  somes <$> collect (tag_resource page_url soup) order.

(** The name and the attributes of a tag after the transformation: the link
    attribute of a local link holds the path of the resource, all else is
    as before. *)
Definition rewrite_info (os : os_name) (dir_name page_url : string)
    (info : string * gmap string string) : string * gmap string string :=
  match table_getitem TAGS_LINK_ATTRIBUTES info.1 with
  | Ok link_attr =>
      match info_resource page_url info with
      | Ok (Some resource) =>
          (info.1,
           <[link_attr := os_path_join os dir_name (name resource)]> info.2)
      | _ => info
      end
  | Raise _ => info
  end.

(** [soup] is [soup0] with the tags [visited] rewritten: the same tree,
    with the name and attributes [rewrite_info] gives at the visited tags. *)
Definition rewritten (os : os_name) (dir_name page_url : string)
    (soup0 : BeautifulSoup) (visited : list ref) (soup : BeautifulSoup) : Prop :=
  (forall p, find_tags p soup = find_tags p soup0)
  /\ (forall tag,
        tag_info soup tag =
        if decide (tag ∈ visited)
        then rewrite_info os dir_name page_url <$> tag_info soup0 tag
        else tag_info soup0 tag).

Definition well_named (page_url : string) (resource : Resource) : Prop :=
  create_resource_name (link resource) = Ok (name resource)
  /\ is_local_link (link resource) page_url = Ok true.

(** A resource is saved when the request for its link returns a response
    (of any status) and the file under its name is written. *)
Definition saved (os : os_name) (requests_get : string -> result Response)
    (write_binary : string -> string -> result unit)
    (dir_path : string) (resource : Resource) : Prop :=
  exists response,
    requests_get (link resource) = Ok response
    /\ write_binary (os_path_join os dir_path (name resource)) (content response)
       = Ok ().

(** A resource fails with [e] when the request or the write raises [e]. *)
Definition fails (os : os_name) (requests_get : string -> result Response)
    (write_binary : string -> string -> result unit)
    (dir_path : string) (resource : Resource) (e : exception) : Prop :=
  requests_get (link resource) = Raise e
  \/ exists response,
       requests_get (link resource) = Ok response
       /\ write_binary (os_path_join os dir_path (name resource))
            (content response) = Raise e.

(** The events of saving a resource: the request and, when there is a
    response, the write. *)
Definition save_events (os : os_name) (requests_get : string -> result Response)
    (dir_path : string) (resource : Resource) : list event :=
  match requests_get (link resource) with
  | Ok response =>
      [Requested (link resource);
       Written (os_path_join os dir_path (name resource)) (content response)]
  | Raise _ => [Requested (link resource)]
  end.

(** The tree without its attribute values: the names of the tags, the
    text and the nesting. *)
Fixpoint erase_attrs (e : PageElement) : PageElement :=
  match e with
  | Tag tag_name _ contents => Tag tag_name ∅ (erase_attrs <$> contents)
  | NavigableString _ => e
  end.

(** A link that takes the scheme of the page: it names none, or the same. *)
Definition own_scheme (l p : ParseResult) : bool :=
  Str.is_empty (scheme l) || String.eqb (scheme l) (scheme p).

(** The files on disk after the events of a trace: a write replaces the
    file at its path, as [open(path, 'wb')] does. *)
Definition write_event (files : gmap string string) (ev : event)
  : gmap string string :=
  match ev with
  | Written path content => <[path := content]> files
  | Requested _ => files
  end.

Definition files_after (trace : list event) : gmap string string :=
  foldl write_event ∅ trace.

(** An event of saving one of [resources] under [dir_path]: the request
    for its link, or a write to the path of its name. *)
Definition event_of (os : os_name) (dir_path : string)
    (resources : list Resource) (ev : event) : Prop :=
  exists resource,
    resource ∈ resources
    /\ (ev = Requested (link resource)
        \/ exists content,
             ev = Written (os_path_join os dir_path (name resource)) content).

(** The same response with another status code. *)
Definition with_status (code : Z) (response : Response) : Response :=
  mkResponse code (content response).

(** * Properties *)

#[local] Arguments String.append !_ _ / : simpl nomatch.

(** ** The exception monad *)

Lemma bind_Ok {A B} (a : A) (k : A -> result B) : (Ok a ≫= k) = k a.
Proof. reflexivity. Qed.

Lemma bind_inv_Ok {A B} (m : result A) (k : A -> result B) b :
  m ≫= k = Ok b -> exists a, m = Ok a /\ k a = Ok b.
Proof. destruct m as [a|e]; [eauto | discriminate]. Qed.

Lemma fmap_inv_Ok {A B} (f : A -> B) (m : result A) b :
  f <$> m = Ok b -> exists a, m = Ok a /\ b = f a.
Proof. destruct m as [a|e]; [intros [= <-]; eauto | discriminate]. Qed.

Ltac inv_result :=
  repeat match goal with
    | H : _ ≫= _ = Ok _ |- _ =>
        apply bind_inv_Ok in H; destruct H as (? & ? & H)
    | H : _ <$> _ = Ok _ |- _ =>
        apply fmap_inv_Ok in H; destruct H as (? & ? & ->)
    | H : Ok _ = Ok _ |- _ => injection H as H; subst
    | H : Raise _ = Ok _ |- _ => discriminate H
    end.

Lemma for_each_invariant {A S} (I : S -> Prop) (l : list A)
    (body : A -> S -> result S) :
  (forall x s s', I s -> body x s = Ok s' -> I s') ->
  forall s s', I s -> for_each l body s = Ok s' -> I s'.
Proof.
  intros Hbody. induction l as [|x l IH]; intros s s' Hs Hrun; simpl in Hrun.
  - congruence.
  - inv_result. eauto.
Qed.

(** ** Link resolution and locality *)

Lemma get_full_link_unfold link page_url p l :
  urlparse page_url "" = Ok p ->
  urlparse link "" = Ok l ->
  get_full_link link page_url =
  if Str.is_empty (netloc l)
  then urljoin (DOMAIN_ADDRESS (scheme p) (netloc p)) link
  else Ok link.
Proof. intros Hp Hl. unfold get_full_link. rewrite Hp, Hl. reflexivity. Qed.

Lemma is_empty_true s : Str.is_empty s = true <-> s = "".
Proof. destruct s; simpl; split; congruence. Qed.

Lemma is_empty_false s : Str.is_empty s = false <-> s ≠ "".
Proof. destruct s; simpl; split; congruence. Qed.

Lemma get_full_link_with_netloc link page_url p l :
  urlparse page_url "" = Ok p ->
  urlparse link "" = Ok l ->
  netloc l ≠ "" ->
  get_full_link link page_url = Ok link.
Proof.
  intros Hp Hl Hnet. rewrite (get_full_link_unfold _ _ _ _ Hp Hl).
  apply is_empty_false in Hnet. rewrite Hnet. reflexivity.
Qed.

(** C8. A raw link that names a network location is returned unchanged,
    whatever the page URL: resolving an absolute link is the identity.  The
    link is the result for every page URL the URL parser accepts, and no
    page URL gives any other result. *)
Theorem get_full_link_netloc_unchanged link page_url l :
  urlparse link "" = Ok l ->
  netloc l ≠ "" ->
  (forall p, urlparse page_url "" = Ok p -> get_full_link link page_url = Ok link)
  /\ (forall full, get_full_link link page_url = Ok full -> full = link).
Proof.
  intros Hl Hnet. unfold get_full_link. rewrite Hl.
  destruct (netloc l) as [|c n] eqn:Hnetloc; [contradiction|]. split.
  - intros p Hp. rewrite Hp. simpl. now rewrite Hnetloc.
  - intros full. destruct (urlparse page_url "") as [p|e]; [|discriminate].
    simpl. rewrite Hnetloc. simpl. congruence.
Qed.

Lemma get_full_link_netloc_unchanged_witness :
  get_full_link "https://cdn.other.com/x.js" "https://example.com/blog/post"
  = Ok "https://cdn.other.com/x.js".
Proof.
  refine (proj1 (get_full_link_netloc_unchanged
                   "https://cdn.other.com/x.js" "https://example.com/blog/post"
                   (mkParseResult "https" "cdn.other.com" "/x.js" "" "" "") _ _)
            (mkParseResult "https" "example.com" "/blog/post" "" "" "") _).
  - reflexivity.
  - discriminate.
  - reflexivity.
Defined.

Lemma is_local_link_unfold link page_url l p :
  urlparse link "" = Ok l ->
  urlparse page_url "" = Ok p ->
  is_local_link link page_url = Ok (String.eqb (netloc l) (netloc p)).
Proof. intros Hl Hp. unfold is_local_link. rewrite Hl, Hp. reflexivity. Qed.

Lemma length_append (a b : string) :
  String.length (a +:+ b) = (String.length a + String.length b)%nat.
Proof. induction a as [|c a IH]; simpl; [reflexivity | now rewrite IH]. Qed.

(** C6. A link is local exactly when the network location the URL parser
    emits for it is the same string as the one it emits for the page URL.
    The comparison is exact: a subdomain, another letter case, an explicit
    default port and a trailing dot all make the link remote. *)
Theorem is_local_link_exact_netloc link page_url l p :
  urlparse link "" = Ok l ->
  urlparse page_url "" = Ok p ->
  (is_local_link link page_url = Ok true <-> netloc l = netloc p)
  /\ (is_local_link link page_url = Ok false <-> netloc l ≠ netloc p)
  /\ (forall sub, netloc l = sub +:+ "." +:+ netloc p ->
      is_local_link link page_url = Ok false)
  /\ is_local_link "https://cdn.example.com/x.js" "https://example.com/" = Ok false
  /\ is_local_link "https://Example.com/a.png" "https://example.com/" = Ok false
  /\ is_local_link "https://example.com:443/a.png" "https://example.com/" = Ok false
  /\ is_local_link "https://example.com./a.png" "https://example.com/" = Ok false.
Proof.
  intros Hl Hp. rewrite (is_local_link_unfold _ _ _ _ Hl Hp).
  repeat split; try reflexivity.
  - intros [= H]. now apply String.eqb_eq.
  - intros H. f_equal. now apply String.eqb_eq.
  - intros [= H]. now apply String.eqb_neq.
  - intros H. f_equal. now apply String.eqb_neq.
  - intros sub Hsub. f_equal. apply String.eqb_neq. intros Heq.
    rewrite Heq in Hsub. apply (f_equal String.length) in Hsub.
    rewrite !length_append in Hsub. simpl in Hsub. lia.
Qed.

Lemma is_local_link_exact_netloc_witness :
  is_local_link "https://example.com/images/a.png" "https://example.com/blog/post"
  = Ok true.
Proof.
  apply (is_local_link_exact_netloc
           "https://example.com/images/a.png" "https://example.com/blog/post"
           (mkParseResult "https" "example.com" "/images/a.png" "" "" "")
           (mkParseResult "https" "example.com" "/blog/post" "" "" ""));
    reflexivity.
Defined.

(** ** Resource names *)

Lemma create_resource_name_unfold link parsed :
  urlparse link "" = Ok parsed ->
  create_resource_name link =
  let '(root, ext) := splitext (path parsed) in
  let root := if Str.startswith root "/" then Str.slice_from root 1 else root in
  let ext := Str.slice_from ext 1 in
  Ok (hyphenate (netloc parsed) +:+ "-" +:+ hyphenate root +:+ "."
      +:+ (if negb (Str.is_empty ext) then ext else HTML_EXT)).
Proof.
  intros H. unfold create_resource_name, parse_url. rewrite H. simpl.
  destruct (splitext (path parsed)) as [root ext]. reflexivity.
Qed.

Lemma append_assoc (a b c : string) : (a +:+ b) +:+ c = a +:+ (b +:+ c).
Proof. induction a as [|x a IH]; simpl; [reflexivity | now rewrite IH]. Qed.

Lemma append_nonempty_r (a b : string) : b ≠ "" -> a +:+ b ≠ "".
Proof. destruct a, b; simpl; congruence. Qed.

Lemma all_append (p : ascii -> bool) (a b : string) :
  Str.all p (a +:+ b) = Str.all p a && Str.all p b.
Proof.
  induction a as [|c a IH]; simpl; [reflexivity|].
  now rewrite IH, andb_assoc.
Qed.

Lemma hyphenate_char_portable (c : ascii) :
  portable_char (if isalnum c then c else "-"%char) = true.
Proof. destruct c as [[] [] [] [] [] [] [] []]; reflexivity. Qed.

Lemma hyphenate_portable s : Str.all portable_char (hyphenate s) = true.
Proof.
  induction s as [|c s IH]; [reflexivity|].
  unfold hyphenate in *. cbn [Str.map Str.all].
  now rewrite hyphenate_char_portable, IH.
Qed.

(** C7. The name of a resource is [netloc-path.ext], of the three parts
    [parse_url] gives for its link, with [html] for an empty [ext]: the
    hyphenated host, a hyphen, the hyphenated path without its extension,
    a dot, and the extension of the path when [splitext] finds one, the
    default [html] otherwise.  The name is never empty; for a link whose
    path is empty or the bare [/] it is the hyphenated host followed by
    [-.html], a file name of portable characters. *)
Theorem create_resource_name_extension link parsed :
  urlparse link "" = Ok parsed ->
  exists parts resource_name,
    parse_url link = Ok parts
    /\ create_resource_name link = Ok resource_name
    /\ resource_name
       = parsed_netloc parts +:+ "-" +:+ parsed_path parts +:+ "."
         +:+ (if negb (Str.is_empty (parsed_ext parts))
              then parsed_ext parts else "html")
    /\ resource_name ≠ ""
    /\ (forall root ext,
          splitext (path parsed) = (root, "." +:+ ext) -> ext ≠ "" ->
          resource_name
          = hyphenate (netloc parsed) +:+ "-"
            +:+ hyphenate (without_root_slash root) +:+ "." +:+ ext)
    /\ (forall root ext,
          splitext (path parsed) = (root, ext) -> Str.slice_from ext 1 = "" ->
          resource_name
          = hyphenate (netloc parsed) +:+ "-"
            +:+ hyphenate (without_root_slash root) +:+ ".html")
    /\ (path parsed = "" \/ path parsed = "/" ->
        resource_name = hyphenate (netloc parsed) +:+ "-.html"
        /\ portable_filename resource_name).
Proof.
  intros H. unfold create_resource_name, parse_url. rewrite H, !bind_Ok.
  destruct (splitext (path parsed)) as [root ext] eqn:Hsplit.
  rewrite bind_Ok. cbn [parsed_netloc parsed_path parsed_ext].
  fold (without_root_slash root).
  eexists _, _. split; [reflexivity|]. split; [reflexivity|].
  split; [reflexivity|]. split; [|split; [|split]].
  - rewrite <- !append_assoc. apply append_nonempty_r.
    destruct (Str.slice_from ext 1); discriminate.
  - intros root' ext' [= -> ->] Hext.
    change (Str.slice_from (String "." ext') 1) with ext'.
    apply is_empty_false in Hext. now rewrite Hext.
  - intros root' ext' [= -> ->] Hext. now rewrite Hext.
  - intros Hpath.
    assert (root = path parsed /\ ext = "") as [-> ->].
    { destruct Hpath as [Hpath | Hpath]; rewrite Hpath in Hsplit |- *;
        vm_compute in Hsplit; now injection Hsplit as <- <-. }
    assert (Hroot : without_root_slash (path parsed) = "")
      by (now destruct Hpath as [-> | ->]).
    rewrite Hroot. change (hyphenate "") with "". cbn [Str.slice_from Str.drop
      Z.to_nat Str.is_empty negb String.append].
    split; [reflexivity|]. repeat split.
    + apply append_nonempty_r. discriminate.
    + intros Heq. apply (f_equal String.length) in Heq.
      rewrite length_append in Heq. simpl in Heq. lia.
    + intros Heq. apply (f_equal String.length) in Heq.
      rewrite length_append in Heq. simpl in Heq. lia.
    + now rewrite all_append, hyphenate_portable.
Qed.

Lemma create_resource_name_extension_witness :
  exists parts resource_name,
    parse_url "https://example.com/assets/app.css" = Ok parts
    /\ create_resource_name "https://example.com/assets/app.css"
       = Ok resource_name
    /\ resource_name
       = parsed_netloc parts +:+ "-" +:+ parsed_path parts +:+ "."
         +:+ (if negb (Str.is_empty (parsed_ext parts))
              then parsed_ext parts else "html")
    /\ resource_name ≠ ""
    /\ (forall root ext,
          splitext "/assets/app.css" = (root, "." +:+ ext) -> ext ≠ "" ->
          resource_name
          = hyphenate "example.com" +:+ "-"
            +:+ hyphenate (without_root_slash root) +:+ "." +:+ ext)
    /\ (forall root ext,
          splitext "/assets/app.css" = (root, ext) -> Str.slice_from ext 1 = "" ->
          resource_name
          = hyphenate "example.com" +:+ "-"
            +:+ hyphenate (without_root_slash root) +:+ ".html")
    /\ ("/assets/app.css" = "" \/ "/assets/app.css" = "/" ->
        resource_name = hyphenate "example.com" +:+ "-.html"
        /\ portable_filename resource_name).
Proof.
  apply (create_resource_name_extension "https://example.com/assets/app.css"
           (mkParseResult "https" "example.com" "/assets/app.css" "" "" "")).
  reflexivity.
Defined.

(** ** Entries of the resource list *)

Section entries.

Context (os : os_name) (get_dir_name : string -> string).

Lemma process_tag_well_named page_url dir_name tag soup resources soup' resources' :
  Forall (well_named page_url) resources ->
  process_tag os page_url dir_name tag (soup, resources) = Ok (soup', resources') ->
  Forall (well_named page_url) resources'.
Proof.
  intros Hall. unfold process_tag.
  destruct (deref soup tag) as [[tag_name attrs contents|text]|];
    [|intros [= <- <-]; exact Hall ..].
  intros H. inv_result.
  match goal with H : (if ?b then _ else _) = _ |- _ => destruct b eqn:Hlocal end.
  - inv_result. apply Forall_app. split; [exact Hall|].
    repeat constructor; simpl; congruence.
  - inv_result. exact Hall.
Qed.

(** C10. Every entry of the resource list [search_resources] returns has
    the name [create_resource_name] gives for its link, and a link that
    [is_local_link] accepts for the page URL. *)
Theorem search_resources_entries soup page_url soup' resources :
  search_resources os get_dir_name soup page_url = Ok (soup', resources) ->
  Forall (fun resource =>
            create_resource_name (link resource) = Ok (name resource)
            /\ is_local_link (link resource) page_url = Ok true)
    resources.
Proof.
  unfold search_resources. intros Hrun.
  apply (for_each_invariant
           (fun state => Forall (well_named page_url) state.2)) in Hrun;
    [exact Hrun | | constructor].
  intros resource_tag [s rs] [s' rs'] Hrs Hinner. simpl in *.
  apply (for_each_invariant
           (fun state => Forall (well_named page_url) state.2)) in Hinner;
    [exact Hinner | | exact Hrs].
  intros tag [s1 rs1] [s2 rs2] H1 Hstep. simpl in *.
  eapply process_tag_well_named; eassumption.
Qed.

End entries.

Lemma search_resources_entries_witness :
  Forall (fun resource =>
            create_resource_name (link resource) = Ok (name resource)
            /\ is_local_link (link resource) "https://example.com/blog/post"
               = Ok true)
    [mkResource "https://example.com/images/a.png" "example-com-images-a.png";
     mkResource "https://example.com/style.css" "example-com-style.css"].
Proof.
  eapply (search_resources_entries posix (fun _ => "example-com-blog-post_files")
            [Tag "html" ∅
               [Tag "img" {["src" := "/images/a.png"]} [];
                Tag "script" {["src" := "https://cdn.other.com/x.js"]} [];
                Tag "link" {["href" := "style.css"]} []]]).
  vm_compute. reflexivity.
Defined.

(** C3. The transformation raises on elements the claim says it skips: a tag
    of a matching kind without its link attribute raises [KeyError] (here an
    inline script, and an image without a source), and one whose link has an
    unbalanced bracket in its network location raises [ValueError]. *)
Theorem search_resources_raises os get_dir_name :
  search_resources os get_dir_name
    [Tag "script" ∅ [NavigableString "console.log(1)"]] "https://example.com/"
  = Raise KeyError
  /\ search_resources os get_dir_name
       [Tag "img" {["alt" := "logo"]} []] "https://example.com/"
     = Raise KeyError
  /\ search_resources os get_dir_name
       [Tag "img" {["src" := "//[example.com/a.png"]} []] "https://example.com/"
     = Raise ValueError.
Proof. repeat split; reflexivity. Qed.

(** ** Fetching and saving *)

Section fetcher.

Context (os : os_name) (requests_get : string -> result Response)
  (write_binary : string -> string -> result unit).

Local Abbreviation saved := (saved os requests_get write_binary).
Local Abbreviation fails := (fails os requests_get write_binary).
Local Abbreviation save_events := (save_events os requests_get).

Lemma save_resources_cons resource resources dir_path trace :
  save_resources os requests_get write_binary (resource :: resources) dir_path trace
  = match requests_get (link resource) with
    | Ok response =>
        let resource_path := os_path_join os dir_path (name resource) in
        match write_binary resource_path (content response) with
        | Ok _ =>
            save_resources os requests_get write_binary resources dir_path
              (trace ++ [Requested (link resource);
                         Written resource_path (content response)])
        | Raise e => (Raise e, trace ++ [Requested (link resource)])
        end
    | Raise e => (Raise e, trace ++ [Requested (link resource)])
    end.
Proof.
  simpl. unfold mbind, io_bind, get_content, write_file.
  destruct (requests_get (link resource)) as [response|e]; simpl; [|reflexivity].
  destruct (write_binary _ _) as [[]|e]; [|reflexivity].
  now rewrite <- app_assoc.
Qed.

Lemma save_resources_saved resources dir_path trace :
  Forall (saved dir_path) resources ->
  save_resources os requests_get write_binary resources dir_path trace
  = (Ok (), trace ++ flat_map (save_events dir_path) resources).
Proof.
  intros Hall. revert trace.
  induction Hall as [|resource resources (response & Hget & Hwrite) _ IH];
    intros trace.
  - simpl. now rewrite app_nil_r.
  - rewrite save_resources_cons, Hget. simpl. rewrite Hwrite, IH.
    unfold save_events at 2. rewrite Hget. now rewrite <- app_assoc.
Qed.

Lemma save_resources_app done resources dir_path trace :
  Forall (saved dir_path) done ->
  save_resources os requests_get write_binary (done ++ resources) dir_path trace
  = save_resources os requests_get write_binary resources dir_path
      (trace ++ flat_map (save_events dir_path) done).
Proof.
  intros Hall. revert trace.
  induction Hall as [|resource done (response & Hget & Hwrite) _ IH];
    intros trace.
  - simpl. now rewrite app_nil_r.
  - rewrite <- app_comm_cons, save_resources_cons, Hget. simpl.
    rewrite Hwrite, IH. unfold save_events at 2. rewrite Hget.
    now rewrite <- app_assoc.
Qed.

(** C4, as the code has it.  Resources are requested and written strictly
    in list order.  The first resource whose request or write raises ends
    the loop with that exception: the trace stops at its request, nothing
    of the rest of the list is requested or written, and no success is
    returned.  A response with an HTTP error status is not a failure: its
    body is written like any other. *)
Theorem save_resources_fail_fast done dir_path trace :
  Forall (saved dir_path) done ->
  save_resources os requests_get write_binary done dir_path trace
  = (Ok (), trace ++ flat_map (save_events dir_path) done)
  /\ forall resource rest e,
      fails dir_path resource e ->
      save_resources os requests_get write_binary
        (done ++ resource :: rest) dir_path trace
      = (Raise e,
         trace ++ flat_map (save_events dir_path) done
           ++ [Requested (link resource)]).
Proof.
  intros Hdone. split; [now apply save_resources_saved|].
  intros resource rest e Hfail.
  rewrite (save_resources_app _ _ _ _ Hdone), save_resources_cons.
  destruct Hfail as [Hget | (response & Hget & Hwrite)]; rewrite Hget; simpl.
  - now rewrite <- app_assoc.
  - rewrite Hwrite. now rewrite <- app_assoc.
Qed.

End fetcher.

(** C4, as stated, fails on HTTP errors: a server that answers every request
    with status 404 makes no request raise, so both resources are written
    (with the error page as their content) and the loop returns normally. *)
Lemma save_resources_http_error_saved :
  save_resources posix
    (fun _ => Ok (mkResponse 404 "Not Found")) (fun _ _ => Ok ())
    [mkResource "https://example.com/a.png" "example-com-a.png";
     mkResource "https://example.com/b.css" "example-com-b.css"]
    "/var/tmp/example-com_files" []
  = (Ok (),
     [Requested "https://example.com/a.png";
      Written "/var/tmp/example-com_files/example-com-a.png" "Not Found";
      Requested "https://example.com/b.css";
      Written "/var/tmp/example-com_files/example-com-b.css" "Not Found"]).
Proof. reflexivity. Qed.

Lemma save_resources_fail_fast_witness :
  save_resources posix
    (fun url => if String.eqb url "https://example.com/a.png"
                then Ok (mkResponse 200 "PNG") else Raise RequestException)
    (fun _ _ => Ok ())
    [mkResource "https://example.com/a.png" "example-com-a.png";
     mkResource "https://example.com/b.css" "example-com-b.css";
     mkResource "https://example.com/c.js" "example-com-c.js"]
    "/var/tmp/example-com_files" []
  = (Raise RequestException,
     [Requested "https://example.com/a.png";
      Written "/var/tmp/example-com_files/example-com-a.png" "PNG";
      Requested "https://example.com/b.css"]).
Proof.
  refine (proj2 (save_resources_fail_fast posix _ (fun _ _ => Ok ())
                   [mkResource "https://example.com/a.png" "example-com-a.png"]
                   "/var/tmp/example-com_files" [] _)
            (mkResource "https://example.com/b.css" "example-com-b.css")
            [mkResource "https://example.com/c.js" "example-com-c.js"]
            RequestException _).
  - repeat constructor. exists (mkResponse 200 "PNG"). split; reflexivity.
  - left. reflexivity.
Defined.

(** ** Strings *)

Lemma append_empty_r (a : string) : a +:+ "" = a.
Proof. induction a as [|c a IH]; simpl; [reflexivity | now rewrite IH]. Qed.

Lemma take_app (a b : string) : Str.take (String.length a) (a +:+ b) = a.
Proof. induction a as [|c a IH]; simpl; [now destruct b | now rewrite IH]. Qed.

Lemma drop_app (a b : string) : Str.drop (String.length a) (a +:+ b) = b.
Proof. induction a as [|c a IH]; simpl; [reflexivity | exact IH]. Qed.

Lemma contains_take c n s :
  Str.contains c s = false -> Str.contains c (Str.take n s) = false.
Proof.
  revert n. induction s as [|d s IH]; intros [|n]; simpl; try reflexivity.
  intros [-> H]%orb_false_elim. now rewrite IH.
Qed.

Lemma contains_drop c n s :
  Str.contains c s = false -> Str.contains c (Str.drop n s) = false.
Proof.
  revert n. induction s as [|d s IH]; intros [|n]; simpl; try reflexivity.
  - now intros ?.
  - intros [_ H]%orb_false_elim. now apply IH.
Qed.

Lemma index_of_None c s : Str.index_of c s = None <-> Str.contains c s = false.
Proof.
  induction s as [|d s IH]; simpl; [tauto|].
  destruct (Ascii.eqb d c); simpl; [split; discriminate|].
  destruct (Str.index_of c s); simpl; [|tauto].
  split; [discriminate|]. intros H. apply IH in H. discriminate.
Qed.

Lemma index_of_app c (a b : string) :
  Str.contains c a = false ->
  Str.index_of c (a +:+ b) = (fun i => (String.length a + i)%nat) <$> Str.index_of c b.
Proof.
  induction a as [|d a IH]; simpl.
  - intros _. now destruct (Str.index_of c b).
  - intros [-> H]%orb_false_elim. rewrite (IH H).
    now destruct (Str.index_of c b).
Qed.

(** The text before the first occurrence of [c] does not contain [c]. *)
Lemma contains_take_index c s k :
  match Str.index_of c s with Some i => (k <= i)%nat | None => True end ->
  Str.contains c (Str.take k s) = false.
Proof.
  revert k. induction s as [|d s IH]; intros [|k]; simpl; try reflexivity.
  destruct (Ascii.eqb d c); simpl; [lia|].
  intros H. apply IH. destruct (Str.index_of c s); simpl in *; [lia | exact I].
Qed.

Lemma remove_app c (a b : string) :
  Str.remove c (a +:+ b) = Str.remove c a +:+ Str.remove c b.
Proof.
  induction a as [|d a IH]; simpl; [reflexivity|].
  destruct (Ascii.eqb d c); simpl; now rewrite IH.
Qed.

Lemma remove_id c s : Str.contains c s = false -> Str.remove c s = s.
Proof.
  induction s as [|d s IH]; simpl; [reflexivity|].
  intros [-> H]%orb_false_elim. now rewrite IH.
Qed.

Lemma contains_remove c s : Str.contains c (Str.remove c s) = false.
Proof.
  induction s as [|d s IH]; simpl; [reflexivity|].
  destruct (Ascii.eqb d c) eqn:E; simpl; [exact IH | now rewrite E].
Qed.

Lemma contains_remove_other c d s :
  Str.contains c s = false -> Str.contains c (Str.remove d s) = false.
Proof.
  induction s as [|e s IH]; simpl; [reflexivity|].
  intros [He H]%orb_false_elim.
  destruct (Ascii.eqb e d); simpl; [now apply IH | now rewrite He, IH].
Qed.

(** ** The URL parser on [scheme://netloc...] *)

Lemma remove_unsafe_bytes_unfold s :
  remove_unsafe_bytes s =
  Str.remove (Ascii.ascii_of_nat 10)
    (Str.remove (Ascii.ascii_of_nat 13) (Str.remove (Ascii.ascii_of_nat 9) s)).
Proof. reflexivity. Qed.

Lemma remove_unsafe_bytes_app (a b : string) :
  remove_unsafe_bytes (a +:+ b) = remove_unsafe_bytes a +:+ remove_unsafe_bytes b.
Proof. rewrite !remove_unsafe_bytes_unfold. now rewrite !remove_app. Qed.

Lemma remove_unsafe_bytes_id n :
  Forall (fun b => Str.contains b n = false) _UNSAFE_URL_BYTES_TO_REMOVE ->
  remove_unsafe_bytes n = n.
Proof.
  intros H. rewrite remove_unsafe_bytes_unfold.
  apply Forall_cons in H as [H1 H]. apply Forall_cons in H as [H2 H].
  apply Forall_cons in H as [H3 _].
  now rewrite (remove_id _ _ H1), (remove_id _ _ H2), (remove_id _ _ H3).
Qed.

Lemma remove_unsafe_bytes_clean s :
  Forall (fun b => Str.contains b (remove_unsafe_bytes s) = false)
    _UNSAFE_URL_BYTES_TO_REMOVE.
Proof.
  rewrite remove_unsafe_bytes_unfold.
  repeat apply Forall_cons_2; [| |apply contains_remove|constructor].
  - do 2 apply contains_remove_other. apply contains_remove.
  - apply contains_remove_other. apply contains_remove.
Qed.

Lemma delimited_remove_unsafe_bytes rest :
  delimited rest -> delimited (remove_unsafe_bytes rest).
Proof.
  destruct rest as [|c rest]; [trivial|].
  rewrite remove_unsafe_bytes_unfold.
  intros [-> | [-> | ->]]; simpl; auto.
Qed.

Lemma find_after_slashes c (x : string) :
  Str.find (String "/" (String "/" x)) c 2 =
  match Str.index_of c x with
  | Some i => 2 + Z.of_nat i
  | None => -1
  end.
Proof. reflexivity. Qed.

Lemma splitnetloc_spec (n rest : string) :
  Str.contains "/" n = false -> Str.contains "?" n = false ->
  Str.contains "#" n = false ->
  delimited rest ->
  _splitnetloc ("//" +:+ n +:+ rest) 2 = (n, rest).
Proof.
  intros Hslash Hquestion Hhash Hrest. unfold _splitnetloc.
  match goal with
  | |- (Str.slice _ _ ?d, _) = _ =>
      assert (Hdelim : d = 2 + Z.of_nat (String.length n))
  end.
  { simpl fold_left. simpl String.append. rewrite !find_after_slashes.
    rewrite (index_of_app _ _ _ Hslash), (index_of_app _ _ _ Hquestion),
      (index_of_app _ _ _ Hhash).
    unfold Str.len. simpl String.length. rewrite length_append.
    destruct rest as [|c rest]; simpl.
    - lia.
    - destruct Hrest as [-> | [-> | ->]]; simpl;
        destruct (Str.index_of "/" rest), (Str.index_of "?" rest),
          (Str.index_of "#" rest); simpl;
        repeat match goal with
          | |- context [?a >=? ?b] => destruct (Z.geb_spec a b); try lia
          end. }
  rewrite Hdelim. f_equal.
  - unfold Str.slice.
    replace (Z.to_nat (2 + Z.of_nat (String.length n) - 2))
      with (String.length n) by lia.
    change (Str.drop (Z.to_nat 2) ("//" +:+ n +:+ rest)) with (n +:+ rest).
    apply take_app.
  - unfold Str.slice_from.
    replace (Z.to_nat (2 + Z.of_nat (String.length n)))
      with (2 + String.length n)%nat by lia.
    change (Str.drop (2 + String.length n) ("//" +:+ n +:+ rest))
      with (Str.drop (String.length n) (n +:+ rest)).
    apply drop_app.
Qed.

Lemma urlsplit_origin s n rest default :
  s = "http" \/ s = "https" -> netloc_ok n -> delimited rest ->
  urlsplit (s +:+ "://" +:+ n +:+ rest) default =
  let rest := remove_unsafe_bytes rest in
  let '(url, fragment) :=
    if Str.contains "#" rest then Str.split1 "#" rest else (rest, "") in
  let '(url, query) :=
    if Str.contains "?" url then Str.split1 "?" url else (url, "") in
  Ok (mkSplitResult s n url query fragment).
Proof.
  intros Hs (Hslash & Hquestion & Hhash & Hbrackets & Hclean) Hrest.
  apply delimited_remove_unsafe_bytes in Hrest.
  unfold urlsplit. rewrite !remove_unsafe_bytes_app.
  rewrite (remove_unsafe_bytes_id n Hclean).
  set (rest' := remove_unsafe_bytes rest) in *.
  set (default' := remove_unsafe_bytes default).
  assert (Hsplit : _splitnetloc ("//" +:+ n +:+ rest') 2 = (n, rest'))
    by now apply splitnetloc_spec.
  destruct Hs as [-> | ->].
  - change (remove_unsafe_bytes "http" +:+ remove_unsafe_bytes "://" +:+ n +:+ rest')
      with ("http:" +:+ ("//" +:+ n +:+ rest')).
    set (x := "//" +:+ n +:+ rest') in *.
    change (Str.find ("http:" +:+ x) ":" 0) with 4.
    change (Str.slice_to ("http:" +:+ x) 4) with "http".
    change (Str.slice_from ("http:" +:+ x) (4 + 1)) with x.
    change ((4 >? 0) && Str.all (fun c => Str.contains c scheme_chars) "http")
      with true.
    cbv iota beta. change (Str.lower "http") with "http".
    change (Str.slice_to x 2) with "//". rewrite String.eqb_refl, Hsplit, Hbrackets.
    reflexivity.
  - change (remove_unsafe_bytes "https" +:+ remove_unsafe_bytes "://" +:+ n +:+ rest')
      with ("https:" +:+ ("//" +:+ n +:+ rest')).
    set (x := "//" +:+ n +:+ rest') in *.
    change (Str.find ("https:" +:+ x) ":" 0) with 5.
    change (Str.slice_to ("https:" +:+ x) 5) with "https".
    change (Str.slice_from ("https:" +:+ x) (5 + 1)) with x.
    change ((5 >? 0) && Str.all (fun c => Str.contains c scheme_chars) "https")
      with true.
    cbv iota beta. change (Str.lower "https") with "https".
    change (Str.slice_to x 2) with "//". rewrite String.eqb_refl, Hsplit, Hbrackets.
    reflexivity.
Qed.

Lemma urlparse_origin s n rest default :
  s = "http" \/ s = "https" -> netloc_ok n -> delimited rest ->
  exists r,
    urlparse (s +:+ "://" +:+ n +:+ rest) default = Ok r
    /\ scheme r = s /\ netloc r = n.
Proof.
  intros Hs Hn Hrest. unfold urlparse.
  rewrite (urlsplit_origin _ _ _ _ Hs Hn Hrest). cbv zeta.
  destruct (if Str.contains "#" _ then _ else _) as [url fragment].
  destruct (if Str.contains "?" _ then _ else _) as [url' query].
  rewrite bind_Ok.
  destruct (if str_in s uses_params && _ then _ else _) as [url'' params].
  eexists. split; [reflexivity|]. split; reflexivity.
Qed.

Lemma urlparse_domain_address s n :
  s = "http" \/ s = "https" -> netloc_ok n ->
  urlparse (DOMAIN_ADDRESS s n) "" = Ok (mkParseResult s n "" "" "" "").
Proof.
  intros Hs Hn. unfold DOMAIN_ADDRESS, urlparse.
  rewrite <- (append_empty_r n) at 1.
  rewrite (urlsplit_origin s n "" "" Hs Hn I). simpl.
  now rewrite andb_false_r.
Qed.

Lemma splitnetloc_no_delimiter url c :
  c = "/"%char \/ c = "?"%char \/ c = "#"%char ->
  Str.contains c (_splitnetloc url 2).1 = false.
Proof.
  intros Hc. unfold _splitnetloc. simpl fold_left. cbn [fst].
  unfold Str.slice. apply contains_take_index.
  unfold Str.find, Str.len.
  change (Str.slice_from url 2) with (Str.drop (Z.to_nat 2) url).
  destruct (Str.index_of "/" (Str.drop (Z.to_nat 2) url)) eqn:E1,
    (Str.index_of "?" (Str.drop (Z.to_nat 2) url)) eqn:E2,
    (Str.index_of "#" (Str.drop (Z.to_nat 2) url)) eqn:E3;
    destruct Hc as [-> | [-> | ->]]; rewrite ?E1, ?E2, ?E3; try exact I;
    repeat match goal with
      | |- context [?a >=? ?b] => destruct (Z.geb_spec a b); try lia
      end.
Qed.

Lemma contains_empty_clean :
  Forall (fun b => Str.contains b "" = false) _UNSAFE_URL_BYTES_TO_REMOVE.
Proof. repeat constructor. Qed.

Lemma urlsplit_netloc_ok url default r :
  urlsplit url default = Ok r -> netloc_ok (split_netloc r).
Proof.
  unfold urlsplit.
  pose proof (remove_unsafe_bytes_clean url) as Hclean.
  set (url0 := remove_unsafe_bytes url) in *.
  match goal with
  | |- (let '(_, _) := ?scheme_split in _) = _ -> _ =>
      assert (Hclean1 :
        Forall (fun b => Str.contains b scheme_split.2 = false)
          _UNSAFE_URL_BYTES_TO_REMOVE);
      [|destruct scheme_split as [scheme1 url1]]
  end.
  { destruct (_ && _); simpl; [|exact Hclean].
    eapply Forall_impl; [exact Hclean|]. intros b Hb. now apply contains_drop. }
  simpl in Hclean1.
  destruct (String.eqb (Str.slice_to url1 2) "//").
  - pose proof (splitnetloc_no_delimiter url1) as Hdelim.
    assert (Hclean2 :
      Forall (fun b => Str.contains b (_splitnetloc url1 2).1 = false)
        _UNSAFE_URL_BYTES_TO_REMOVE).
    { eapply Forall_impl; [exact Hclean1|]. intros b Hb.
      unfold _splitnetloc, Str.slice. cbv zeta. cbn [fst].
      now apply contains_take, contains_drop. }
    destruct (_splitnetloc url1 2) as [netloc1 url2]. simpl in *.
    destruct (unbalanced_brackets netloc1) eqn:Hbrackets; [discriminate|].
    rewrite bind_Ok.
    destruct (if Str.contains "#" _ then _ else _) as [url3 fragment].
    destruct (if Str.contains "?" _ then _ else _) as [url4 query].
    intros [= <-]. simpl. repeat split; auto.
  - rewrite bind_Ok.
    destruct (if Str.contains "#" _ then _ else _) as [url3 fragment].
    destruct (if Str.contains "?" _ then _ else _) as [url4 query].
    intros [= <-]. simpl. repeat split; auto. apply contains_empty_clean.
Qed.

Lemma urlparse_netloc_ok url default r :
  urlparse url default = Ok r -> netloc_ok (netloc r).
Proof.
  unfold urlparse. intros H. apply bind_inv_Ok in H as ([s n u q f] & Hsplit & H).
  apply urlsplit_netloc_ok in Hsplit. simpl in Hsplit.
  destruct (if str_in s uses_params && _ then _ else _) as [url' params].
  injection H as <-. exact Hsplit.
Qed.

Lemma found_scheme_nonempty url :
  (Str.find url ":" 0 >? 0) = true ->
  Str.is_empty (Str.lower (Str.slice_to url (Str.find url ":" 0))) = false.
Proof.
  unfold Str.find, Str.slice_to. change (Str.slice_from url 0) with url.
  destruct (Str.index_of ":" url) as [k|] eqn:E; [|discriminate].
  intros H. apply Z.gtb_lt in H.
  replace (Z.to_nat (0 + Z.of_nat k)) with k by lia.
  destruct k as [|k]; [lia|]. destruct url; [discriminate | reflexivity].
Qed.

Ltac destruct_netloc_split :=
  match goal with
  | |- (?x ≫= _) = _ -> _ =>
      destruct x as [[?netloc1 ?url1]|?e]; [rewrite !bind_Ok | discriminate]
  end.

Lemma urlsplit_default url default r :
  default = "http" \/ default = "https" ->
  urlsplit url "" = Ok r ->
  urlsplit url default =
  Ok (if Str.is_empty (split_scheme r)
      then mkSplitResult default (split_netloc r) (split_path r)
             (split_query r) (split_fragment r)
      else r).
Proof.
  intros Hd. unfold urlsplit.
  replace (remove_unsafe_bytes default) with default
    by (destruct Hd as [-> | ->]; reflexivity).
  change (remove_unsafe_bytes "") with "".
  set (url0 := remove_unsafe_bytes url).
  destruct (Str.find url0 ":" 0 >? 0) eqn:Hfound; simpl andb; cbv iota.
  - destruct (Str.all _ _).
    + pose proof (found_scheme_nonempty _ Hfound) as Hne.
      destruct_netloc_split. simpl.
      destruct (if Str.contains "#" _ then _ else _) as [url3 fragment].
      destruct (if Str.contains "?" _ then _ else _) as [url4 query].
      intros [= <-]. simpl. now rewrite Hne.
    + destruct_netloc_split. simpl.
      destruct (if Str.contains "#" _ then _ else _) as [url3 fragment].
      destruct (if Str.contains "?" _ then _ else _) as [url4 query].
      intros [= <-]. reflexivity.
  - destruct_netloc_split. simpl.
    destruct (if Str.contains "#" _ then _ else _) as [url3 fragment].
    destruct (if Str.contains "?" _ then _ else _) as [url4 query].
    intros [= <-]. reflexivity.
Qed.

Lemma urlparse_default url default l :
  default = "http" \/ default = "https" ->
  urlparse url "" = Ok l ->
  urlparse url default =
  Ok (if Str.is_empty (scheme l)
      then mkParseResult default (netloc l) (path l) (params l) (query l)
             (fragment l)
      else l).
Proof.
  intros Hd. unfold urlparse. intros H.
  apply bind_inv_Ok in H as ([s n u q f] & Hsplit & H).
  rewrite (urlsplit_default _ _ _ Hd Hsplit), bind_Ok.
  cbn [split_scheme split_netloc split_path split_query split_fragment].
  destruct (Str.is_empty s) eqn:Hs.
  - apply is_empty_true in Hs. subst s.
    assert (Hparams : str_in default uses_params = str_in "" uses_params)
      by (destruct Hd as [-> | ->]; reflexivity).
    rewrite Hparams.
    destruct (if str_in "" uses_params && _ then _ else _) as [url' params'].
    injection H as <-. reflexivity.
  - destruct (if str_in s uses_params && _ then _ else _) as [url' params'].
    injection H as <-. cbn [scheme]. now rewrite Hs.
Qed.

Lemma delimited_app (a b : string) :
  delimited a -> (a = "" -> delimited b) -> delimited (a +:+ b).
Proof. destruct a; simpl; auto. Qed.

Lemma slice_to_1_slash url :
  String.eqb (Str.slice_to url 1) "/" = true -> exists url', url = String "/" url'.
Proof.
  destruct url as [|c url]; [discriminate|].
  change (Str.slice_to (String c url) 1) with (String c "").
  intros H. apply String.eqb_eq in H. injection H as ->. eauto.
Qed.

Lemma urlunparse_origin s n pth prm qry frg :
  s = "http" \/ s = "https" -> n ≠ "" ->
  exists rest,
    delimited rest
    /\ urlunparse (mkParseResult s n pth prm qry frg)
       = s +:+ "://" +:+ n +:+ rest.
Proof.
  intros Hs Hn. unfold urlunparse, urlunsplit.
  cbn [scheme netloc path params query fragment].
  apply is_empty_false in Hn. rewrite Hn. cbn [negb orb].
  set (url := if negb (Str.is_empty prm) then pth +:+ ";" +:+ prm else pth).
  set (url1 := if negb (Str.is_empty url)
                  && negb (String.eqb (Str.slice_to url 1) "/")
               then "/" +:+ url else url).
  assert (Hurl1 : delimited url1).
  { subst url1. destruct (Str.is_empty url) eqn:Hempty; simpl.
    - apply is_empty_true in Hempty. now rewrite Hempty.
    - destruct (String.eqb (Str.slice_to url 1) "/") eqn:Hslash; simpl; [|auto].
      apply slice_to_1_slash in Hslash as [url' ->]. simpl. auto. }
  exists (url1
          +:+ (if negb (Str.is_empty qry) then "?" +:+ qry else "")
          +:+ (if negb (Str.is_empty frg) then "#" +:+ frg else "")).
  split.
  - apply delimited_app; [exact Hurl1|]. intros _.
    apply delimited_app; destruct (Str.is_empty qry), (Str.is_empty frg);
      simpl; auto.
  - replace (Str.is_empty s) with false by (destruct Hs as [-> | ->]; reflexivity).
    cbn [negb].
    destruct (Str.is_empty qry), (Str.is_empty frg); cbn [negb];
      rewrite ?append_assoc, ?append_empty_r; reflexivity.
Qed.

Lemma urljoin_origin s n link l :
  s = "http" \/ s = "https" -> netloc_ok n -> n ≠ "" ->
  urlparse link "" = Ok l -> netloc l = "" ->
  scheme l = "" \/ scheme l = s ->
  exists rest,
    delimited rest
    /\ urljoin (DOMAIN_ADDRESS s n) link = Ok (s +:+ "://" +:+ n +:+ rest).
Proof.
  intros Hs Hn Hne Hl Hnetloc Hscheme. unfold urljoin.
  replace (Str.is_empty (DOMAIN_ADDRESS s n)) with false
    by (destruct Hs as [-> | ->]; reflexivity).
  destruct (Str.is_empty link).
  { exists "". split; [exact I|]. unfold DOMAIN_ADDRESS.
    now rewrite append_empty_r. }
  rewrite (urlparse_domain_address _ _ Hs Hn), bind_Ok.
  rewrite (urlparse_default _ _ _ Hs Hl), bind_Ok.
  assert (Hparsed :
    (if Str.is_empty (scheme l)
     then mkParseResult s (netloc l) (path l) (params l) (query l) (fragment l)
     else l)
    = mkParseResult s "" (path l) (params l) (query l) (fragment l)).
  { destruct l as [ls ln lp lpa lq lf]. simpl in *. subst ln.
    destruct Hscheme as [-> | ->]; [reflexivity|].
    destruct Hs as [-> | ->]; reflexivity. }
  rewrite Hparsed. clear Hparsed.
  rewrite String.eqb_refl.
  replace (str_in s uses_relative) with true
    by (destruct Hs as [-> | ->]; reflexivity).
  replace (str_in s uses_netloc) with true
    by (destruct Hs as [-> | ->]; reflexivity).
  cbn [negb orb andb Str.is_empty].
  destruct (Str.is_empty (path l) && Str.is_empty (params l));
    cbv zeta;
    match goal with
    | |- exists _, _ /\ Ok (urlunparse (mkParseResult _ _ ?p ?pa ?q ?f)) = _ =>
        destruct (urlunparse_origin s n p pa q f Hs Hne) as (rest & Hrest & ->);
        eauto
    end.
Qed.

(** ** Joining a plain path *)

Lemma find_absent s c : Str.contains c s = false -> Str.find s c 0 = -1.
Proof.
  intros H%index_of_None. unfold Str.find.
  change (Str.slice_from s 0) with s. now rewrite H.
Qed.

Lemma urlparse_path url default :
  Forall (fun c => Str.contains c url = false)
    ([":"; "?"; "#"; ";"]%char ++ _UNSAFE_URL_BYTES_TO_REMOVE) ->
  String.eqb (Str.slice_to url 2) "//" = false ->
  urlparse url default
  = Ok (mkParseResult (remove_unsafe_bytes default) "" url "" "" "").
Proof.
  intros Hchars Hslashes.
  apply Forall_cons in Hchars as [Hcolon Hchars].
  apply Forall_cons in Hchars as [Hquestion Hchars].
  apply Forall_cons in Hchars as [Hhash Hchars].
  apply Forall_cons in Hchars as [Hsemicolon Hclean].
  unfold urlparse, urlsplit.
  rewrite (remove_unsafe_bytes_id url Hclean), (find_absent _ _ Hcolon).
  change (-1 >? 0) with false. cbn [andb].
  rewrite Hslashes, bind_Ok, Hhash, Hquestion, bind_Ok, Hsemicolon.
  now rewrite andb_false_r.
Qed.

Lemma split_nonempty sep s : Str.split sep s ≠ [].
Proof.
  destruct s as [|c s]; simpl; [discriminate|].
  destruct (Ascii.eqb c sep); [discriminate|].
  destruct (Str.split sep s); discriminate.
Qed.

Lemma join_cons sep x l :
  l ≠ [] -> Str.join sep (x :: l) = x +:+ sep +:+ Str.join sep l.
Proof. destruct l; [contradiction | reflexivity]. Qed.

Lemma join_split s : Str.join "/" (Str.split "/" s) = s.
Proof.
  induction s as [|c s IH]; [reflexivity|]. simpl.
  destruct (Ascii.eqb_spec c "/") as [->|Hc].
  - rewrite join_cons by apply split_nonempty. now rewrite IH.
  - destruct (Str.split "/" s) as [|h t] eqn:Hsplit;
      [now apply split_nonempty in Hsplit|].
    destruct t as [|h' t].
    + simpl in *. now rewrite IH.
    + rewrite join_cons by discriminate. rewrite join_cons in IH by discriminate.
      simpl. simpl in IH. now rewrite IH.
Qed.

(** A path whose first segment is not empty does not start with a slash. *)
Lemma split_head_nonempty s seg segs :
  Str.split "/" s = seg :: segs -> seg ≠ "" ->
  exists c s', s = String c s' /\ Ascii.eqb c "/" = false.
Proof.
  destruct s as [|c s]; simpl; [intros [= <- _]; contradiction|].
  destruct (Ascii.eqb c "/") eqn:Hc; [intros [= <- _]; contradiction|].
  eauto.
Qed.

Lemma resolve_segments_plain segments resolved_path :
  Forall (fun seg => seg ≠ "." /\ seg ≠ "..") segments ->
  resolve_segments segments resolved_path = resolved_path ++ segments.
Proof.
  intros Hall. revert resolved_path.
  induction Hall as [|seg segments [Hdot Hdots] _ IH]; intros resolved_path; simpl.
  - now rewrite app_nil_r.
  - apply String.eqb_neq in Hdot, Hdots. rewrite Hdot, Hdots, IH.
    now rewrite <- app_assoc.
Qed.

Lemma filter_nonempty segments :
  Forall (fun seg => seg ≠ "") segments ->
  List.filter (fun s => negb (Str.is_empty s)) segments = segments.
Proof.
  induction 1 as [|seg segments Hseg%is_empty_false _ IH]; simpl; [reflexivity|].
  now rewrite Hseg, IH.
Qed.

Lemma filter_middle_plain first segments :
  Forall (fun seg => seg ≠ "") segments ->
  filter_middle (first :: segments) = first :: segments.
Proof.
  intros Hall. unfold filter_middle.
  destruct (reverse segments) as [|last middle_rev] eqn:Hrev.
  - apply (f_equal reverse) in Hrev. rewrite reverse_involutive in Hrev.
    now rewrite Hrev.
  - apply (f_equal reverse) in Hrev.
    rewrite reverse_involutive, reverse_cons in Hrev. subst segments.
    apply Forall_app in Hall as [Hall _]. now rewrite (filter_nonempty _ Hall).
Qed.

Lemma last_plain segments :
  segments ≠ [] -> Forall plain_segment segments ->
  String.eqb (List.last segments "") "." || String.eqb (List.last segments "") ".."
  = false.
Proof.
  intros Hne Hall.
  assert (Hlast : plain_segment (List.last segments "")).
  { induction Hall as [|seg segments Hseg Hall IH]; [contradiction|].
    destruct segments as [|seg' segments]; [exact Hseg|].
    apply IH. discriminate. }
  destruct Hlast as (_ & Hdot%String.eqb_neq & Hdots%String.eqb_neq).
  now rewrite Hdot, Hdots.
Qed.

Lemma plain_path_joined s n segments :
  s = "http" \/ s = "https" -> n ≠ "" ->
  Forall plain_segment segments -> segments ≠ [] ->
  (let resolved_path := resolve_segments ("" :: segments) [] in
   let resolved_path :=
     if String.eqb (List.last ("" :: segments) "") "."
        || String.eqb (List.last ("" :: segments) "") ".."
     then resolved_path ++ [""] else resolved_path in
   let joined := Str.join "/" resolved_path in
   urlunparse (mkParseResult s n (if Str.is_empty joined then "/" else joined)
                 "" "" ""))
  = s +:+ "://" +:+ n +:+ "/" +:+ Str.join "/" segments.
Proof.
  intros Hs Hn%is_empty_false Hall Hne. cbv zeta.
  replace (List.last ("" :: segments) "") with (List.last segments "")
    by (destruct segments; [contradiction | reflexivity]).
  rewrite (last_plain _ Hne Hall).
  rewrite resolve_segments_plain.
  2:{ constructor; [split; discriminate|].
      eapply Forall_impl; [exact Hall|]. intros seg (_ & ? & ?). auto. }
  rewrite app_nil_l, join_cons by exact Hne.
  unfold urlunparse, urlunsplit. cbn [scheme netloc path params query fragment].
  rewrite Hn. cbn [negb orb Str.is_empty].
  change ("" +:+ "/" +:+ Str.join "/" segments)
    with (String "/" (Str.join "/" segments)).
  cbn [Str.is_empty negb andb].
  change (Str.slice_to (String "/" (Str.join "/" segments)) 1) with "/".
  cbn [String.eqb Ascii.eqb Bool.eqb negb andb].
  destruct Hs as [-> | ->]; reflexivity.
Qed.

Lemma plain_path_start rel :
  plain_path rel ->
  exists c rel', rel = String c rel' /\ Ascii.eqb c "/" = false.
Proof.
  intros [_ Hsegments].
  destruct (Str.split "/" rel) as [|seg segs] eqn:Hsplit;
    [now apply split_nonempty in Hsplit|].
  apply Forall_cons in Hsegments as [(Hseg & _) _].
  exact (split_head_nonempty _ _ _ Hsplit Hseg).
Qed.

Lemma plain_path_absolute rel :
  plain_path rel ->
  Forall (fun c => Str.contains c ("/" +:+ rel) = false)
    ([":"; "?"; "#"; ";"]%char ++ _UNSAFE_URL_BYTES_TO_REMOVE).
Proof.
  intros [Hchars _]. eapply Forall_impl; [|exact (fun c H => H)].
  repeat (apply Forall_cons in Hchars as [? Hchars]).
  repeat (apply Forall_cons_2; [simpl; assumption|]). constructor.
Qed.

(** Joined to an origin, a plain relative path and the same path with a
    leading slash both land under the root of the origin. *)
Lemma urljoin_plain s n rel :
  s = "http" \/ s = "https" -> netloc_ok n -> n ≠ "" -> plain_path rel ->
  urljoin (DOMAIN_ADDRESS s n) rel = Ok (s +:+ "://" +:+ n +:+ "/" +:+ rel)
  /\ urljoin (DOMAIN_ADDRESS s n) ("/" +:+ rel)
     = Ok (s +:+ "://" +:+ n +:+ "/" +:+ rel).
Proof.
  intros Hs Hn Hne Hplain.
  destruct (plain_path_start _ Hplain) as (c & rel' & -> & Hc).
  pose proof (plain_path_absolute _ Hplain) as Habsolute.
  destruct Hplain as [Hchars Hsegments].
  assert (Hdefault : remove_unsafe_bytes s = s)
    by (destruct Hs as [-> | ->]; reflexivity).
  assert (Hnonempty : Forall (fun seg => seg ≠ "") (Str.split "/" (String c rel'))).
  { eapply Forall_impl; [exact Hsegments|]. now intros seg (? & _). }
  assert (Hjoined := plain_path_joined s n _ Hs Hne Hsegments (split_nonempty _ _)).
  rewrite join_split in Hjoined.
  unfold urljoin.
  replace (Str.is_empty (DOMAIN_ADDRESS s n)) with false
    by (destruct Hs as [-> | ->]; reflexivity).
  rewrite (urlparse_domain_address _ _ Hs Hn), !bind_Ok.
  split.
  - rewrite (urlparse_path _ s Hchars), Hdefault, bind_Ok.
    2:{ change (Str.slice_to (String c rel') 2) with (String c (Str.take 1 rel')).
        simpl. now rewrite Hc. }
    rewrite String.eqb_refl.
    replace (str_in s uses_relative) with true
      by (destruct Hs as [-> | ->]; reflexivity).
    replace (str_in s uses_netloc) with true
      by (destruct Hs as [-> | ->]; reflexivity).
    cbn [negb orb andb Str.is_empty].
    change (Str.slice_to (String c rel') 1) with (String c "").
    replace (String.eqb (String c "") "/") with false by (simpl; now rewrite Hc).
    change (Str.split "/" "") with [""].
    cbn [List.last String.eqb negb app].
    rewrite (filter_middle_plain _ _ Hnonempty).
    cbv zeta in Hjoined. cbv zeta. now rewrite Hjoined.
  - change ("/" +:+ String c rel') with (String "/" (String c rel')) in *.
    rewrite (urlparse_path _ s Habsolute), Hdefault, bind_Ok.
    2:{ change (Str.slice_to (String "/" (String c rel')) 2)
          with (String "/" (String c "")).
        simpl. now rewrite Hc. }
    rewrite String.eqb_refl.
    replace (str_in s uses_relative) with true
      by (destruct Hs as [-> | ->]; reflexivity).
    replace (str_in s uses_netloc) with true
      by (destruct Hs as [-> | ->]; reflexivity).
    cbn [negb orb andb Str.is_empty].
    change (Str.slice_to (String "/" (String c rel')) 1) with "/".
    change (String.eqb "/" "/") with true. cbv iota.
    change (Str.split "/" (String "/" (String c rel')))
      with ("" :: Str.split "/" (String c rel')).
    cbv zeta in Hjoined. cbv zeta. now rewrite Hjoined.
Qed.

(** ** Resolved links *)

(** A link that names no host and no scheme other than the page's resolves
    to a URL with the scheme and the host of a well-formed page. *)
Lemma get_full_link_inherits link page_url p l :
  well_formed_page page_url p ->
  urlparse link "" = Ok l ->
  netloc l = "" ->
  scheme l = "" \/ scheme l = scheme p ->
  exists full r,
    get_full_link link page_url = Ok full
    /\ urlparse full "" = Ok r
    /\ scheme r = scheme p /\ netloc r = netloc p.
Proof.
  intros (Hp & Hscheme & Hhost) Hl Hnet Hsch.
  pose proof (urlparse_netloc_ok _ _ _ Hp) as Hok.
  destruct (urljoin_origin _ _ _ _ Hscheme Hok Hhost Hl Hnet Hsch)
    as (rest & Hrest & Hjoin).
  destruct (urlparse_origin _ _ _ "" Hscheme Hok Hrest) as (r & Hr & Hrs & Hrn).
  exists (scheme p +:+ "://" +:+ netloc p +:+ rest), r.
  split; [|split; [exact Hr | split; assumption]].
  rewrite (get_full_link_unfold _ _ _ _ Hp Hl), Hnet. exact Hjoin.
Qed.

(** C2, as stated, fails for a relative path: the standard join of
    [style.css] with the page URL resolves it against the current path of
    the page, [get_full_link] resolves it against the root. *)
Lemma get_full_link_ignores_page_path :
  urljoin "https://example.com/blog/post" "style.css"
  = Ok "https://example.com/blog/style.css"
  /\ get_full_link "style.css" "https://example.com/blog/post"
     = Ok "https://example.com/style.css"
  /\ get_full_link "style.css" "https://example.com/blog/post"
     ≠ urljoin "https://example.com/blog/post" "style.css".
Proof. repeat split; try reflexivity. vm_compute. discriminate. Qed.

(** C2, as the code has it.  A raw link without a network location is
    joined, with the standard URL-joining rules, to the origin
    [scheme://netloc] of the page and to nothing else of the page URL: the
    result is the same for all pages of one origin.  So a relative path
    of plain segments, one that starts with no control character and no
    space, resolves against the root of the page, not against its current
    path, exactly as the same path with a leading slash does, and a link
    without a scheme gets the scheme (and the host) of the page. *)
Theorem get_full_link_joins_origin link page_url p l :
  urlparse page_url "" = Ok p ->
  urlparse link "" = Ok l ->
  netloc l = "" ->
  get_full_link link page_url
  = urljoin (DOMAIN_ADDRESS (scheme p) (netloc p)) link
  /\ (forall page_url' p',
        urlparse page_url' "" = Ok p' ->
        scheme p' = scheme p -> netloc p' = netloc p ->
        get_full_link link page_url' = get_full_link link page_url)
  /\ (forall rel,
        scheme p = "http" \/ scheme p = "https" -> netloc p ≠ "" ->
        plain_path rel -> starts_clean rel ->
        get_full_link rel page_url
        = Ok (scheme p +:+ "://" +:+ netloc p +:+ "/" +:+ rel)
        /\ get_full_link ("/" +:+ rel) page_url
           = Ok (scheme p +:+ "://" +:+ netloc p +:+ "/" +:+ rel))
  /\ (scheme p = "http" \/ scheme p = "https" -> netloc p ≠ "" ->
      scheme l = "" ->
      exists full r,
        get_full_link link page_url = Ok full
        /\ urlparse full "" = Ok r
        /\ scheme r = scheme p /\ netloc r = netloc p).
Proof.
  intros Hp Hl Hnetloc.
  assert (Hjoin : forall u q, urlparse u "" = Ok q ->
            get_full_link link u = urljoin (DOMAIN_ADDRESS (scheme q) (netloc q)) link).
  { intros u q Hq. rewrite (get_full_link_unfold _ _ _ _ Hq Hl), Hnetloc.
    reflexivity. }
  split; [now apply Hjoin|]. split; [|split].
  - intros page_url' p' Hp' Hscheme Hnet.
    rewrite (Hjoin _ _ Hp'), (Hjoin _ _ Hp). now rewrite Hscheme, Hnet.
  - intros rel Hscheme Hhost Hplain _.
    pose proof (urlparse_netloc_ok _ _ _ Hp) as Hok.
    destruct (urljoin_plain _ _ _ Hscheme Hok Hhost Hplain) as [Hrel Habs].
    destruct (plain_path_start _ Hplain) as (c & rel' & Heq & Hc).
    split.
    + rewrite (get_full_link_unfold rel page_url p
                 (mkParseResult "" "" rel "" "" "") Hp); [exact Hrel|].
      apply urlparse_path; [apply Hplain|].
      rewrite Heq. change (Str.slice_to (String c rel') 2)
        with (String c (Str.take 1 rel')).
      simpl. now rewrite Hc.
    + rewrite (get_full_link_unfold ("/" +:+ rel) page_url p
                 (mkParseResult "" "" ("/" +:+ rel) "" "" "") Hp); [exact Habs|].
      apply urlparse_path; [now apply plain_path_absolute|].
      rewrite Heq. change (Str.slice_to ("/" +:+ String c rel') 2)
        with (String "/" (String c "")).
      simpl. now rewrite Hc.
  - intros Hscheme Hhost Hnone.
    apply (get_full_link_inherits link page_url p l); auto.
    split; [exact Hp | split; assumption].
Qed.

Lemma get_full_link_joins_origin_witness :
  get_full_link "style.css" "https://example.com/blog/post"
  = urljoin (DOMAIN_ADDRESS "https" "example.com") "style.css"
  /\ (forall page_url' p',
        urlparse page_url' "" = Ok p' ->
        scheme p' = "https" -> netloc p' = "example.com" ->
        get_full_link "style.css" page_url'
        = get_full_link "style.css" "https://example.com/blog/post")
  /\ (forall rel,
        "https" = "http" \/ "https" = "https" -> "example.com" ≠ "" ->
        plain_path rel -> starts_clean rel ->
        get_full_link rel "https://example.com/blog/post"
        = Ok ("https" +:+ "://" +:+ "example.com" +:+ "/" +:+ rel)
        /\ get_full_link ("/" +:+ rel) "https://example.com/blog/post"
           = Ok ("https" +:+ "://" +:+ "example.com" +:+ "/" +:+ rel))
  /\ ("https" = "http" \/ "https" = "https" -> "example.com" ≠ "" ->
      "" = "" ->
      exists full r,
        get_full_link "style.css" "https://example.com/blog/post" = Ok full
        /\ urlparse full "" = Ok r
        /\ scheme r = "https" /\ netloc r = "example.com").
Proof.
  apply (get_full_link_joins_origin "style.css" "https://example.com/blog/post"
           (mkParseResult "https" "example.com" "/blog/post" "" "" "")
           (mkParseResult "" "" "style.css" "" "" ""));
    reflexivity.
Defined.

(** C9, as stated, fails for a link with a scheme of its own and no host: it
    is returned as it is, and has no host to carry. *)
Lemma get_full_link_mailto :
  get_full_link "mailto:webmaster@example.com" "https://example.com/blog/post"
  = Ok "mailto:webmaster@example.com"
  /\ urlparse "mailto:webmaster@example.com" ""
     = Ok (mkParseResult "mailto" "" "webmaster@example.com" "" "" "").
Proof. split; reflexivity. Qed.

(** C9, as the code has it.  For a well-formed page URL, a raw link that
    names a scheme and a host is returned with them, and a raw link that
    names no host and no scheme other than the page's resolves to an
    absolute URL that carries the scheme and the host of the page. *)
Theorem get_full_link_absolute link page_url p l :
  well_formed_page page_url p ->
  urlparse link "" = Ok l ->
  (netloc l ≠ "" /\ scheme l ≠ "")
  \/ (netloc l = "" /\ (scheme l = "" \/ scheme l = scheme p)) ->
  exists full r,
    get_full_link link page_url = Ok full
    /\ urlparse full "" = Ok r
    /\ scheme r ≠ "" /\ netloc r ≠ ""
    /\ (netloc l = "" -> scheme r = scheme p /\ netloc r = netloc p).
Proof.
  intros Hpage Hl [[Hnet Hsch] | [Hnet Hsch]].
  - destruct Hpage as (Hp & _ & _). exists link, l. split; [|split; [exact Hl|]].
    + now apply (get_full_link_with_netloc _ _ _ _ Hp Hl).
    + split; [exact Hsch|]. split; [exact Hnet|]. intros H. contradiction.
  - destruct (get_full_link_inherits _ _ _ _ Hpage Hl Hnet Hsch)
      as (full & r & Hfull & Hr & Hrs & Hrn).
    destruct Hpage as (_ & Hscheme & Hhost).
    exists full, r. split; [exact Hfull|]. split; [exact Hr|].
    rewrite Hrs, Hrn. split; [|split; [exact Hhost | auto]].
    destruct Hscheme as [-> | ->]; discriminate.
Qed.

Lemma get_full_link_absolute_witness :
  exists full r,
    get_full_link "style.css" "https://example.com/blog/post" = Ok full
    /\ urlparse full "" = Ok r
    /\ scheme r ≠ "" /\ netloc r ≠ ""
    /\ ("" = "" -> scheme r = "https" /\ netloc r = "example.com").
Proof.
  apply (get_full_link_absolute "style.css" "https://example.com/blog/post"
           (mkParseResult "https" "example.com" "/blog/post" "" "" "")
           (mkParseResult "" "" "style.css" "" "" "")).
  - split; [reflexivity|]. split; [right; reflexivity | discriminate].
  - reflexivity.
  - right. split; [reflexivity | left; reflexivity].
Defined.

(** ** The parse tree *)

Lemma PageElement_ind' (P : PageElement -> Prop) :
  (forall tag_name attrs contents, Forall P contents -> P (Tag tag_name attrs contents)) ->
  (forall text, P (NavigableString text)) ->
  forall e, P e.
Proof.
  intros Htag Htext. fix IH 1. intros [tag_name attrs contents|text];
    [|apply Htext].
  apply Htag. induction contents as [|e contents IHc]; constructor;
    [apply IH | apply IHc].
Qed.

Lemma elem_of_flat_mapi {A B} (f : nat -> A -> list B) i l x :
  x ∈ flat_mapi f i l <-> exists k a, l !! k = Some a /\ x ∈ f (i + k)%nat a.
Proof.
  revert i. induction l as [|a l IH]; intros i; simpl.
  - split; [intros []%elem_of_nil | intros (k & a & [=] & _)].
  - rewrite elem_of_app, IH. split.
    + intros [H | (k & b & Hk & H)].
      * exists O, a. rewrite Nat.add_0_r. auto.
      * exists (S k), b. replace (i + S k)%nat with (S i + k)%nat by lia. auto.
    + intros ([|k] & b & Hk & H); simpl in Hk.
      * injection Hk as <-. rewrite Nat.add_0_r in H. auto.
      * right. exists k, b. replace (S i + k)%nat with (i + S k)%nat by lia. auto.
Qed.

Lemma flat_mapi_alter {A B} (f : nat -> A -> list B) (h : A -> A) k i l :
  (forall a j, l !! i = Some a -> f j (h a) = f j a) ->
  flat_mapi f k (alter h i l) = flat_mapi f k l.
Proof.
  revert k i. induction l as [|a l IH]; intros k [|i] H; simpl; try reflexivity.
  - now rewrite (H a k).
  - f_equal. apply IH. intros b j Hb. now apply H.
Qed.

Lemma elem_of_find_tags p i contents r :
  r ∈ flat_mapi (fun i c => cons i <$> find_elem p c) i contents
  <-> exists k e r', r = (i + k)%nat :: r' /\ contents !! k = Some e
                     /\ r' ∈ find_elem p e.
Proof.
  rewrite elem_of_flat_mapi. split.
  - intros (k & e & Hk & (r' & -> & Hr')%list_elem_of_fmap). eauto 6.
  - intros (k & e & r' & -> & Hk & Hr'). exists k, e. split; [exact Hk|].
    now apply list_elem_of_fmap_2.
Qed.

Lemma deref_cons contents i r :
  deref contents (i :: r) = contents !! i ≫= fun e => deref_in e r.
Proof.
  simpl. destruct (contents !! i) as [e|]; [|reflexivity]. simpl.
  destruct r, e; reflexivity.
Qed.

(** [find_all] returns references to tags of the tree, with a name it was
    asked for. *)
Lemma find_elem_deref p e r :
  r ∈ find_elem p e ->
  exists tag_name attrs contents,
    deref_in e r = Some (Tag tag_name attrs contents) /\ p tag_name = true.
Proof.
  revert r. induction e as [tag_name attrs contents IH|text] using PageElement_ind';
    intros r; simpl; [|intros []%elem_of_nil].
  rewrite elem_of_app. intros [Hroot | Hbelow].
  - destruct (p tag_name) eqn:Hp; [|now apply elem_of_nil in Hroot].
    apply list_elem_of_singleton in Hroot as ->. simpl. eauto.
  - apply elem_of_find_tags in Hbelow as (k & e & r' & -> & Hk & Hr').
    rewrite Forall_lookup in IH. destruct (IH k e Hk r' Hr') as (n & a & c & Hd & Hp).
    exists n, a, c. split; [|exact Hp].
    change (deref_in (Tag tag_name attrs contents) ((0 + k)%nat :: r'))
      with (deref contents (k :: r')).
    rewrite deref_cons, Hk. exact Hd.
Qed.

Lemma find_tags_deref p soup r :
  r ∈ find_tags p soup ->
  exists tag_name attrs contents,
    deref soup r = Some (Tag tag_name attrs contents) /\ p tag_name = true.
Proof.
  intros (k & e & r' & -> & Hk & Hr')%elem_of_find_tags.
  destruct (find_elem_deref _ _ _ Hr') as (n & a & c & Hd & Hp).
  exists n, a, c. split; [|exact Hp]. simpl plus. rewrite deref_cons, Hk. exact Hd.
Qed.

(** Conversely, [find_all] returns every tag with that name. *)
Lemma deref_find_tags p soup r tag_name attrs contents :
  deref soup r = Some (Tag tag_name attrs contents) -> p tag_name = true ->
  r ∈ find_tags p soup.
Proof.
  revert soup. induction r as [|k r IH]; intros soup Hd Hp; [discriminate|].
  rewrite deref_cons in Hd. destruct (soup !! k) as [e|] eqn:Hk; [|discriminate].
  simpl in Hd. apply elem_of_find_tags. exists k, e, r. repeat split; [exact Hk|].
  destruct r as [|j r].
  - simpl in Hd. injection Hd as ->. simpl. rewrite Hp. apply elem_of_app. left.
    now apply list_elem_of_singleton.
  - destruct e as [n a c|text]; [|discriminate]. simpl in Hd. simpl.
    apply elem_of_app. right. apply (IH c Hd Hp).
Qed.

Lemma NoDup_find_below p i contents :
  Forall (fun e => NoDup (find_elem p e)) contents ->
  NoDup (flat_mapi (fun i c => cons i <$> find_elem p c) i contents).
Proof.
  intros Hall. revert i. induction Hall as [|e contents He _ IH]; intros i; simpl.
  - constructor.
  - apply NoDup_app. split; [|split; [|apply IH]].
    + apply (NoDup_fmap_2 _). exact He.
    + intros r (r' & -> & _)%list_elem_of_fmap
        (k & e' & r'' & [= Hhead _] & _)%elem_of_find_tags. lia.
Qed.

(** [find_all] returns no tag twice. *)
Lemma NoDup_find_elem p e : NoDup (find_elem p e).
Proof.
  induction e as [tag_name attrs contents IH|text] using PageElement_ind'; simpl;
    [|constructor].
  apply NoDup_app. split; [|split; [|now apply NoDup_find_below]].
  - destruct (p tag_name); [apply NoDup_singleton | constructor].
  - intros r Hroot (k & e' & r' & -> & _)%elem_of_find_tags.
    destruct (p tag_name); [|now apply elem_of_nil in Hroot].
    now apply list_elem_of_singleton in Hroot.
Qed.

Lemma NoDup_find_tags p soup : NoDup (find_tags p soup).
Proof.
  apply NoDup_find_below, Forall_forall. intros e _. apply NoDup_find_elem.
Qed.

(** A reference list of fewer kinds is a sublist of one of more kinds: both
    are in document order. *)
Lemma find_elem_sublist (p q : string -> bool) e :
  (forall tag_name, p tag_name = true -> q tag_name = true) ->
  find_elem p e `sublist_of` find_elem q e.
Proof.
  intros Hpq.
  induction e as [tag_name attrs contents IH|text] using PageElement_ind'; simpl;
    [|constructor].
  apply sublist_app.
  - destruct (p tag_name) eqn:Hp; [rewrite (Hpq _ Hp); reflexivity|].
    apply sublist_nil_l.
  - generalize O. induction IH as [|e contents He _ IHc]; intros i; simpl.
    + constructor.
    + apply sublist_app; [now apply fmap_sublist | apply IHc].
Qed.

Lemma find_tags_sublist (p q : string -> bool) soup :
  (forall tag_name, p tag_name = true -> q tag_name = true) ->
  find_tags p soup `sublist_of` find_tags q soup.
Proof.
  intros Hpq. unfold find_tags. generalize O.
  induction soup as [|e soup IH]; intros i; simpl.
  - constructor.
  - apply sublist_app; [|apply IH].
    apply fmap_sublist. now apply find_elem_sublist.
Qed.

(** Setting an attribute changes neither the shape of the tree nor the
    names of its tags. *)
Lemma find_tags_alter_ref p key value tag soup :
  find_tags p (alter_ref (set_attr key value) tag soup) = find_tags p soup.
Proof.
  revert soup. induction tag as [|i tag IH]; intros soup; [reflexivity|].
  simpl. unfold find_tags. apply flat_mapi_alter. intros e j _. f_equal.
  destruct tag as [|i' tag]; [destruct e; reflexivity|].
  destruct e as [tag_name attrs contents|text]; [|reflexivity].
  simpl find_elem. f_equal. apply (IH contents).
Qed.

Lemma tag_info_cons soup i r :
  tag_info soup (i :: r) = soup !! i ≫= fun e => deref_in e r ≫= elem_info.
Proof.
  unfold tag_info. rewrite deref_cons. destruct (soup !! i); reflexivity.
Qed.

Lemma tag_info_setitem soup tag key value tag' :
  tag_info (setitem soup tag key value) tag' =
  if decide (tag' = tag)
  then (fun info => (info.1, <[key := value]> info.2)) <$> tag_info soup tag
  else tag_info soup tag'.
Proof.
  unfold setitem. revert soup tag'.
  induction tag as [|i tag IH]; intros soup [|i' tag'].
  - reflexivity.
  - now rewrite decide_False by discriminate.
  - now rewrite decide_False by discriminate.
  - rewrite !tag_info_cons. simpl alter_ref.
    destruct (decide (i' = i)) as [->|Hi].
    + rewrite list_lookup_alter_eq.
      destruct (soup !! i) as [e|] eqn:He; simpl;
        [|now destruct (decide (i :: tag' = i :: tag))].
      destruct tag as [|j tag].
      * destruct tag' as [|j' tag'].
        -- rewrite decide_True by reflexivity. destruct e; reflexivity.
        -- rewrite decide_False by discriminate. destruct e; reflexivity.
      * destruct e as [tag_name attrs contents|text].
        -- destruct tag' as [|j' tag'].
           ++ now rewrite decide_False by discriminate.
           ++ change (deref_in (Tag tag_name attrs (alter_ref (set_attr key value)
                                                     (j :: tag) contents))
                        (j' :: tag') ≫= elem_info)
                with (tag_info (alter_ref (set_attr key value) (j :: tag) contents)
                        (j' :: tag')).
              rewrite IH.
              destruct (decide (j' :: tag' = j :: tag)) as [Heq|Hne].
              ** rewrite Heq, decide_True by reflexivity. reflexivity.
              ** rewrite decide_False by congruence. reflexivity.
        -- destruct (decide (i :: tag' = i :: j :: tag)) as [Heq|Hne];
             [|reflexivity].
           injection Heq as ->. reflexivity.
    + rewrite list_lookup_alter_ne by congruence.
      now rewrite decide_False by congruence.
Qed.

(** ** The transformation of the page *)

#[local] Arguments table_getitem : simpl never.

Section transform.

Context (os : os_name) (get_dir_name : string -> string).

Lemma process_tag_unfold page_url dir_name tag soup resources :
  process_tag os page_url dir_name tag (soup, resources) =
  match tag_info soup tag with
  | Some info =>
      match table_getitem TAGS_LINK_ATTRIBUTES info.1 with
      | Ok link_attr =>
          match info_resource page_url info with
          | Ok (Some resource) =>
              Ok (setitem soup tag link_attr
                    (os_path_join os dir_name (name resource)),
                  resources ++ [resource])
          | Ok None => Ok (soup, resources)
          | Raise e => Raise e
          end
      | Raise e => Raise e
      end
  | None => Ok (soup, resources)
  end.
Proof.
  unfold process_tag, tag_info, info_resource, local_resource.
  destruct (deref soup tag) as [[tag_name attrs contents|text]|]; try reflexivity.
  cbn -[table_getitem].
  destruct (table_getitem _ tag_name) as [link_attr|e]; [|reflexivity].
  rewrite !bind_Ok. destruct (getitem attrs link_attr) as [raw|e]; [|reflexivity].
  rewrite !bind_Ok. destruct (get_full_link raw page_url) as [full|e]; [|reflexivity].
  rewrite !bind_Ok. destruct (is_local_link full page_url) as [[]|e]; try reflexivity.
  rewrite !bind_Ok. destruct (create_resource_name full) as [resource_name|e];
    reflexivity.
Qed.

Lemma rewritten_same page_url dir_name soup0 visited soup tag :
  rewritten os dir_name page_url soup0 visited soup ->
  rewrite_info os dir_name page_url <$> tag_info soup0 tag = tag_info soup0 tag ->
  rewritten os dir_name page_url soup0 (visited ++ [tag]) soup.
Proof.
  intros [Hshape Hinfo] Hsame. split; [exact Hshape|]. intros tag'.
  rewrite Hinfo. destruct (decide (tag' = tag)) as [->|Hne].
  - rewrite (decide_True (P := tag ∈ visited ++ [tag]))
      by (apply elem_of_app; right; now apply list_elem_of_singleton).
    destruct (decide (tag ∈ visited)); congruence.
  - destruct (decide (tag' ∈ visited)) as [Hin|Hout].
    + now rewrite decide_True by (apply elem_of_app; auto).
    + rewrite decide_False; [reflexivity|].
      intros [H | H%list_elem_of_singleton]%elem_of_app; contradiction.
Qed.

Lemma process_tag_spec page_url dir_name soup0 visited soup resources tag :
  rewritten os dir_name page_url soup0 visited soup ->
  tag ∉ visited ->
  match tag_resource page_url soup0 tag with
  | Ok outcome =>
      exists soup',
        process_tag os page_url dir_name tag (soup, resources)
        = Ok (soup', resources ++ somes [outcome])
        /\ rewritten os dir_name page_url soup0 (visited ++ [tag]) soup'
  | Raise e => process_tag os page_url dir_name tag (soup, resources) = Raise e
  end.
Proof.
  intros Hinv Hfresh. pose proof Hinv as [Hshape Hinfo].
  rewrite process_tag_unfold, Hinfo, decide_False by exact Hfresh.
  unfold tag_resource.
  destruct (tag_info soup0 tag) as [info|] eqn:Htag.
  - destruct (table_getitem TAGS_LINK_ATTRIBUTES info.1) as [link_attr|e] eqn:Hattr.
    + destruct (info_resource page_url info) as [[resource|]|e] eqn:Hresource.
      * eexists. split; [reflexivity|]. split.
        -- intros p. unfold setitem. now rewrite find_tags_alter_ref.
        -- intros tag'. rewrite tag_info_setitem, !Hinfo.
           rewrite (decide_False (P := tag ∈ visited)) by exact Hfresh.
           destruct (decide (tag' = tag)) as [->|Hne].
           ++ rewrite decide_True
                by (apply elem_of_app; right; now apply list_elem_of_singleton).
              rewrite Htag. simpl. unfold rewrite_info.
              now rewrite Hattr, Hresource.
           ++ destruct (decide (tag' ∈ visited)) as [Hin|Hout].
              ** now rewrite decide_True by (apply elem_of_app; auto).
              ** rewrite decide_False; [reflexivity|].
                 intros [H | H%list_elem_of_singleton]%elem_of_app; contradiction.
      * exists soup. split; [now rewrite app_nil_r|].
        apply rewritten_same; [exact Hinv|]. rewrite Htag. simpl.
        unfold rewrite_info. now rewrite Hattr, Hresource.
      * reflexivity.
    + unfold info_resource. rewrite Hattr. reflexivity.
  - exists soup. split; [now rewrite app_nil_r|].
    apply rewritten_same; [exact Hinv|]. now rewrite Htag.
Qed.

Lemma for_each_process_tag page_url dir_name soup0 tags :
  NoDup tags ->
  forall visited soup resources,
    rewritten os dir_name page_url soup0 visited soup ->
    (forall tag, tag ∈ tags -> tag ∉ visited) ->
    match collect (tag_resource page_url soup0) tags with
    | Ok outcomes =>
        exists soup',
          for_each tags (process_tag os page_url dir_name) (soup, resources)
          = Ok (soup', resources ++ somes outcomes)
          /\ rewritten os dir_name page_url soup0 (visited ++ tags) soup'
    | Raise e =>
        for_each tags (process_tag os page_url dir_name) (soup, resources)
        = Raise e
    end.
Proof.
  induction 1 as [|tag tags Hnotin Hnodup IH]; intros visited soup resources Hinv Hfresh.
  - simpl. exists soup. now rewrite !app_nil_r.
  - cbn [for_each collect].
    pose proof (process_tag_spec page_url dir_name soup0 visited soup resources tag
                  Hinv (Hfresh tag (list_elem_of_here _ _))) as Hstep.
    destruct (tag_resource page_url soup0 tag) as [outcome|e];
      [|now rewrite Hstep].
    destruct Hstep as (soup1 & -> & Hinv1). rewrite !bind_Ok.
    specialize (IH (visited ++ [tag]) soup1 (resources ++ somes [outcome]) Hinv1).
    destruct (collect (tag_resource page_url soup0) tags) as [outcomes|e].
    + destruct IH as (soup' & -> & Hinv').
      { intros tag' Hin [H | ->%list_elem_of_singleton]%elem_of_app;
          [|contradiction].
        apply (Hfresh tag'); [now apply list_elem_of_further | exact H]. }
      exists soup'. split.
      * f_equal. f_equal. rewrite <- app_assoc. f_equal.
        now destruct outcome.
      * now rewrite <- app_assoc in Hinv'.
    + rewrite IH; [reflexivity|].
      intros tag' Hin [H | ->%list_elem_of_singleton]%elem_of_app;
        [|contradiction].
      apply (Hfresh tag'); [now apply list_elem_of_further | exact H].
Qed.

Lemma collect_app {A B} (f : A -> result B) l1 l2 :
  collect f (l1 ++ l2) =
  ys1 ← collect f l1; ys2 ← collect f l2; Ok (ys1 ++ ys2).
Proof.
  induction l1 as [|x l1 IH]; simpl.
  - now destruct (collect f l2).
  - destruct (f x) as [y|e]; [|reflexivity]. rewrite !bind_Ok, IH.
    destruct (collect f l1) as [ys1|e]; [|reflexivity]. rewrite !bind_Ok.
    now destruct (collect f l2).
Qed.

Lemma somes_app {A} (l1 l2 : list (option A)) :
  somes (l1 ++ l2) = somes l1 ++ somes l2.
Proof. apply omap_app. Qed.

Lemma find_all_disjoint soup name1 name2 tag :
  name1 ≠ name2 -> tag ∈ find_all soup name1 -> tag ∉ find_all soup name2.
Proof.
  intros Hne (n1 & a1 & c1 & Hd1 & Hn1%String.eqb_eq)%find_tags_deref
    (n2 & a2 & c2 & Hd2 & Hn2%String.eqb_eq)%find_tags_deref.
  congruence.
Qed.

Lemma rewritten_start dir_name page_url soup :
  rewritten os dir_name page_url soup [] soup.
Proof.
  split; [reflexivity|]. intros tag.
  now rewrite decide_False by apply not_elem_of_nil.
Qed.

(** The transformation, in full: its exception is that of the first tag in
    visiting order whose link raises; otherwise it returns the resources of
    the visited tags, in visiting order, and the tree with those tags
    rewritten. *)
Lemma search_resources_spec soup page_url :
  match collect (tag_resource page_url soup) (visit_order soup) with
  | Ok outcomes =>
      exists soup',
        search_resources os get_dir_name soup page_url = Ok (soup', somes outcomes)
        /\ rewritten os (get_dir_name page_url) page_url soup (visit_order soup) soup'
  | Raise e => search_resources os get_dir_name soup page_url = Raise e
  end.
Proof.
  unfold search_resources, visit_order.
  change (TAGS_LINK_ATTRIBUTES.*1) with ["img"; "link"; "script"].
  cbn [for_each]. set (dir_name := get_dir_name page_url).
  rewrite !collect_app.
  pose proof (for_each_process_tag page_url dir_name soup (find_all soup "img")
                (NoDup_find_tags _ _) [] soup [] (rewritten_start _ _ _)
                (fun _ _ => not_elem_of_nil _)) as H1.
  destruct (collect _ (find_all soup "img")) as [outcomes1|e]; [|now rewrite H1].
  destruct H1 as (soup1 & -> & Hinv1). rewrite !bind_Ok.
  assert (Hlink : find_all soup1 "link" = find_all soup "link")
    by apply Hinv1.
  rewrite Hlink.
  pose proof (for_each_process_tag page_url dir_name soup (find_all soup "link")
                (NoDup_find_tags _ _) _ soup1 ([] ++ somes outcomes1) Hinv1) as H2.
  destruct (collect _ (find_all soup "link")) as [outcomes2|e].
  2:{ rewrite H2; [reflexivity|]. intros tag Hin Hvisited.
      apply (find_all_disjoint soup "link" "img" tag); [discriminate | exact Hin | exact Hvisited]. }
  destruct H2 as (soup2 & -> & Hinv2).
  { intros tag Hin Hvisited.
    apply (find_all_disjoint soup "link" "img" tag); [discriminate | exact Hin | exact Hvisited]. }
  rewrite !bind_Ok.
  assert (Hscript : find_all soup2 "script" = find_all soup "script")
    by apply Hinv2.
  rewrite Hscript.
  assert (Hfresh : forall tag, tag ∈ find_all soup "script" ->
                     tag ∉ ([] ++ find_all soup "img") ++ find_all soup "link").
  { intros tag Hin [Hvisited | Hvisited]%elem_of_app.
    - apply (find_all_disjoint soup "script" "img" tag);
        [discriminate | exact Hin | exact Hvisited].
    - apply (find_all_disjoint soup "script" "link" tag);
        [discriminate | exact Hin | exact Hvisited]. }
  pose proof (for_each_process_tag page_url dir_name soup (find_all soup "script")
                (NoDup_find_tags _ _) _ soup2
                (([] ++ somes outcomes1) ++ somes outcomes2) Hinv2 Hfresh) as H3.
  destruct (collect _ (find_all soup "script")) as [outcomes3|e];
    [|now rewrite H3].
  destruct H3 as (soup3 & -> & Hinv3). rewrite !bind_Ok.
  exists soup3. split.
  - now rewrite !somes_app, app_assoc.
  - now rewrite <- app_assoc in Hinv3.
Qed.

Lemma search_resources_Ok soup page_url soup' resources :
  search_resources os get_dir_name soup page_url = Ok (soup', resources) ->
  resources_of page_url soup (visit_order soup) = Ok resources
  /\ rewritten os (get_dir_name page_url) page_url soup (visit_order soup) soup'.
Proof.
  intros Hrun. pose proof (search_resources_spec soup page_url) as Hspec.
  unfold resources_of.
  destruct (collect _ (visit_order soup)) as [outcomes|e]; [|congruence].
  destruct Hspec as (soup'' & Hrun' & Hinv). rewrite Hrun in Hrun'.
  injection Hrun' as -> ->. split; [reflexivity | exact Hinv].
Qed.

Lemma table_getitem_known tag_name link_attr :
  table_getitem TAGS_LINK_ATTRIBUTES tag_name = Ok link_attr ->
  tag_name = "img" \/ tag_name = "link" \/ tag_name = "script".
Proof.
  unfold TAGS_LINK_ATTRIBUTES, table_getitem.
  destruct (String.eqb_spec "img" tag_name); [auto|].
  destruct (String.eqb_spec "link" tag_name); [auto|].
  destruct (String.eqb_spec "script" tag_name); [auto | discriminate].
Qed.

Lemma str_in_known tag_name :
  str_in tag_name TAGS_LINK_ATTRIBUTES.*1 = true <->
  tag_name = "img" \/ tag_name = "link" \/ tag_name = "script".
Proof.
  change (TAGS_LINK_ATTRIBUTES.*1) with ["img"; "link"; "script"]. simpl.
  destruct (String.eqb_spec tag_name "img"); [tauto|].
  destruct (String.eqb_spec tag_name "link"); [tauto|].
  destruct (String.eqb_spec tag_name "script"); [tauto|].
  simpl. intuition discriminate.
Qed.

Lemma tag_info_Some soup tag tag_name attrs :
  tag_info soup tag = Some (tag_name, attrs) <->
  exists contents, deref soup tag = Some (Tag tag_name attrs contents).
Proof.
  unfold tag_info. destruct (deref soup tag) as [[n a c|text]|]; simpl.
  - split; [intros [= -> ->]; eauto | intros (c' & [= -> -> _]); reflexivity].
  - split; [discriminate | intros (c' & [=])].
  - split; [discriminate | intros (c' & [=])].
Qed.

(** The visited tags are the tags of the three kinds. *)
Lemma elem_of_visit_order soup tag :
  tag ∈ visit_order soup <->
  exists tag_name attrs,
    tag_info soup tag = Some (tag_name, attrs)
    /\ str_in tag_name TAGS_LINK_ATTRIBUTES.*1 = true.
Proof.
  unfold visit_order. rewrite !elem_of_app. split.
  - intros [H | [H | H]];
      apply find_tags_deref in H as (n & a & c & Hd & Hn%String.eqb_eq);
      subst n; eexists _, a; (split; [apply tag_info_Some; eauto | reflexivity]).
  - intros (n & a & (c & Hd)%tag_info_Some & [-> | [-> | ->]]%str_in_known);
      [left | right; left | right; right];
      eapply deref_find_tags; eauto.
Qed.

Lemma NoDup_visit_order soup : NoDup (visit_order soup).
Proof.
  unfold visit_order.
  apply NoDup_app. split; [apply NoDup_find_tags|]. split.
  - intros tag Himg [Hlink | Hscript]%elem_of_app.
    + now apply (find_all_disjoint soup "img" "link" tag).
    + now apply (find_all_disjoint soup "img" "script" tag).
  - apply NoDup_app. split; [apply NoDup_find_tags|]. split.
    + intros tag Hlink Hscript.
      now apply (find_all_disjoint soup "link" "script" tag).
    + apply NoDup_find_tags.
Qed.

Lemma rewritten_all dir_name page_url soup soup' :
  rewritten os dir_name page_url soup (visit_order soup) soup' ->
  forall tag,
    tag_info soup' tag = rewrite_info os dir_name page_url <$> tag_info soup tag.
Proof.
  intros [_ Hinfo] tag. rewrite Hinfo.
  destruct (decide (tag ∈ visit_order soup)) as [Hin|Hout]; [reflexivity|].
  destruct (tag_info soup tag) as [[tag_name attrs]|] eqn:Htag; [|reflexivity].
  simpl. f_equal. unfold rewrite_info. simpl.
  destruct (table_getitem TAGS_LINK_ATTRIBUTES tag_name) as [link_attr|e] eqn:Hattr;
    [|reflexivity].
  exfalso. apply Hout, elem_of_visit_order. exists tag_name, attrs.
  split; [exact Htag|]. eapply str_in_known, table_getitem_known, Hattr.
Qed.

Lemma info_resource_named page_url info resource :
  info_resource page_url info = Ok (Some resource) ->
  create_resource_name (link resource) = Ok (name resource).
Proof.
  unfold info_resource, local_resource. intros H. inv_result.
  match goal with H : (if ?b then _ else _) = _ |- _ => destruct b end;
    [inv_result; simpl; assumption | discriminate].
Qed.

Lemma hyphenate_no_slash s rest :
  Str.startswith (hyphenate s +:+ String "-" rest) "/" = false.
Proof.
  destruct s as [|c s]; [reflexivity|]. simpl.
  destruct (isalnum c) eqn:Halnum; [|reflexivity].
  destruct (Ascii.eqb_spec c "/"); [subst c; discriminate | reflexivity].
Qed.

(** A resource name never starts with a slash. *)
Lemma create_resource_name_no_slash link resource_name :
  create_resource_name link = Ok resource_name ->
  Str.startswith resource_name "/" = false.
Proof.
  intros H.
  assert (exists parsed, urlparse link "" = Ok parsed) as [parsed Hparsed].
  { unfold create_resource_name, parse_url in H. inv_result. eauto. }
  rewrite (create_resource_name_unfold _ _ Hparsed) in H.
  destruct (splitext (path parsed)) as [root ext]. injection H as <-.
  apply hyphenate_no_slash.
Qed.

Lemma posix_join_plain (a b : string) :
  a ≠ "" -> Str.endswith a "/" = false -> Str.startswith b "/" = false ->
  posix_join a b = a +:+ "/" +:+ b.
Proof.
  intros Ha%is_empty_false Hend Hstart. unfold posix_join.
  now rewrite Hstart, Ha, Hend.
Qed.

(** C1, as the code has it.  The resource list (or the exception) is that
    of the tags taken kind by kind, in the order [img], [link], [script] of
    the table, and in document order within one kind: the references of a
    kind are a sublist of the references of all three kinds in document
    order. *)
Theorem search_resources_order soup page_url :
  snd <$> search_resources os get_dir_name soup page_url
  = resources_of page_url soup
      (find_all soup "img" ++ find_all soup "link" ++ find_all soup "script")
  /\ find_all soup "img" `sublist_of` document_order soup
  /\ find_all soup "link" `sublist_of` document_order soup
  /\ find_all soup "script" `sublist_of` document_order soup.
Proof.
  split.
  - pose proof (search_resources_spec soup page_url) as Hspec.
    unfold resources_of. fold (visit_order soup).
    destruct (collect _ (visit_order soup)) as [outcomes|e].
    + destruct Hspec as (soup' & -> & _). reflexivity.
    + rewrite Hspec. reflexivity.
  - repeat split; apply find_tags_sublist; intros tag_name <-%String.eqb_eq;
      reflexivity.
Qed.

(** C5, as the code has it.  When the transformation returns, every tag of
    one of the three kinds whose link is local has its link attribute set
    to [os.path.join(dir_name, name)], which on a POSIX host is
    [dir_name/name] for a directory name that is not empty and does not end
    in a slash; the tree is otherwise the same.  The resource list holds
    the resources of those tags, one for each tag and no other: it is the
    list of the resources of the visited tags, the visited tags are the
    tags of the three kinds, and none is visited twice. *)
Theorem search_resources_rewrites soup page_url soup' resources :
  search_resources os get_dir_name soup page_url = Ok (soup', resources) ->
  (forall tag tag_name attrs link_attr resource,
      tag_info soup tag = Some (tag_name, attrs) ->
      table_getitem TAGS_LINK_ATTRIBUTES tag_name = Ok link_attr ->
      info_resource page_url (tag_name, attrs) = Ok (Some resource) ->
      tag_info soup' tag
      = Some (tag_name,
              <[link_attr := os_path_join os (get_dir_name page_url)
                               (name resource)]> attrs)
      /\ (get_dir_name page_url ≠ "" ->
          Str.endswith (get_dir_name page_url) "/" = false ->
          os_path_join posix (get_dir_name page_url) (name resource)
          = get_dir_name page_url +:+ "/" +:+ name resource))
  /\ (forall p, find_tags p soup' = find_tags p soup)
  /\ resources_of page_url soup (visit_order soup) = Ok resources
  /\ NoDup (visit_order soup)
  /\ (forall tag,
        tag ∈ visit_order soup <->
        exists tag_name attrs,
          tag_info soup tag = Some (tag_name, attrs)
          /\ str_in tag_name TAGS_LINK_ATTRIBUTES.*1 = true).
Proof.
  intros Hrun. apply search_resources_Ok in Hrun as [Hresources Hinv].
  split; [|split; [apply Hinv | split; [exact Hresources|]]].
  - intros tag tag_name attrs link_attr resource Htag Hattr Hresource. split.
    + rewrite (rewritten_all _ _ _ _ Hinv), Htag. simpl. unfold rewrite_info.
      simpl. now rewrite Hattr, Hresource.
    + intros Hdir Hend. apply posix_join_plain; [exact Hdir | exact Hend |].
      eapply create_resource_name_no_slash, info_resource_named, Hresource.
  - split; [apply NoDup_visit_order | apply elem_of_visit_order].
Qed.

End transform.

(** C1, as stated, fails when a tag of a later kind of the table comes
    first in the document: the script precedes the image in document order,
    and its resource follows the resource of the image. *)
Lemma search_resources_kind_before_position :
  document_order
    [Tag "script" {["src" := "/a.js"]} []; Tag "img" {["src" := "/b.png"]} []]
  = [[0%nat]; [1%nat]]
  /\ resources_of "https://example.com/"
       [Tag "script" {["src" := "/a.js"]} []; Tag "img" {["src" := "/b.png"]} []]
       [[0%nat]; [1%nat]]
     = Ok [mkResource "https://example.com/a.js" "example-com-a.js";
           mkResource "https://example.com/b.png" "example-com-b.png"]
  /\ snd <$> search_resources posix (fun _ => "example-com_files")
               [Tag "script" {["src" := "/a.js"]} [];
                Tag "img" {["src" := "/b.png"]} []]
               "https://example.com/"
     = Ok [mkResource "https://example.com/b.png" "example-com-b.png";
           mkResource "https://example.com/a.js" "example-com-a.js"]
  /\ snd <$> search_resources posix (fun _ => "example-com_files")
               [Tag "script" {["src" := "/a.js"]} [];
                Tag "img" {["src" := "/b.png"]} []]
               "https://example.com/"
     ≠ resources_of "https://example.com/"
         [Tag "script" {["src" := "/a.js"]} []; Tag "img" {["src" := "/b.png"]} []]
         (document_order
            [Tag "script" {["src" := "/a.js"]} [];
             Tag "img" {["src" := "/b.png"]} []]).
Proof.
  split; [|split; [|split]]; try (vm_compute; reflexivity).
  vm_compute. discriminate.
Qed.

(** C5, as stated, fails on a Windows host: the separator in the rewritten
    attribute is the backslash of [ntpath.join]. *)
Lemma search_resources_nt_separator :
  search_resources nt (fun _ => "example-com_files")
    [Tag "link" {["href" := "style.css"]} []] "https://example.com/"
  = Ok ([Tag "link" {["href" := "example-com_files\example-com-style.css"]} []],
        [mkResource "https://example.com/style.css" "example-com-style.css"]).
Proof. vm_compute. reflexivity. Qed.

Lemma search_resources_rewrites_witness :
  tag_info
    [Tag "html" ∅
       [Tag "img" {["src" := "example-com-blog-post_files/example-com-images-a.png"]} [];
        Tag "script" {["src" := "https://cdn.other.com/x.js"]} [];
        Tag "link" {["href" := "example-com-blog-post_files/example-com-style.css"]} []]]
    [0%nat; 0%nat]
  = Some ("img",
          <["src" := os_path_join posix "example-com-blog-post_files"
                       "example-com-images-a.png"]>
            {["src" := "/images/a.png"]})
  /\ ("example-com-blog-post_files" ≠ "" ->
      Str.endswith "example-com-blog-post_files" "/" = false ->
      os_path_join posix "example-com-blog-post_files" "example-com-images-a.png"
      = "example-com-blog-post_files" +:+ "/" +:+ "example-com-images-a.png").
Proof.
  refine (proj1 (search_resources_rewrites posix
                   (fun _ => "example-com-blog-post_files")
                   [Tag "html" ∅
                      [Tag "img" {["src" := "/images/a.png"]} [];
                       Tag "script" {["src" := "https://cdn.other.com/x.js"]} [];
                       Tag "link" {["href" := "style.css"]} []]]
                   "https://example.com/blog/post" _
                   [mkResource "https://example.com/images/a.png"
                      "example-com-images-a.png";
                    mkResource "https://example.com/style.css"
                      "example-com-style.css"] _)
            [0%nat; 0%nat] "img" {["src" := "/images/a.png"]} "src"
            (mkResource "https://example.com/images/a.png"
               "example-com-images-a.png") _ _ _).
  - vm_compute. reflexivity.
  - vm_compute. reflexivity.
  - reflexivity.
  - vm_compute. reflexivity.
Defined.

(** * Examples *)

Example urlparse_page :
  urlparse "https://example.com/blog/post?x=1#top" "" =
  Ok (mkParseResult "https" "example.com" "/blog/post" "" "x=1" "top").
Proof. reflexivity. Qed.

Example urlparse_userinfo_port :
  urlparse "HTTP://user@Example.com:8080/a;b?c" "" =
  Ok (mkParseResult "http" "user@Example.com:8080" "/a" "b" "c" "").
Proof. reflexivity. Qed.

Example urlparse_invalid_ipv6 : urlparse "//[::1/x.png" "" = Raise ValueError.
Proof. reflexivity. Qed.

Example urljoin_relative :
  urljoin "https://example.com/blog/post" "style.css" =
  Ok "https://example.com/blog/style.css".
Proof. reflexivity. Qed.

Example urljoin_dots :
  urljoin "http://a/b/c/d;p?q" "../../g" = Ok "http://a/g".
Proof. reflexivity. Qed.

Example urljoin_query_only :
  urljoin "http://a/b/c/d;p?q" "?y" = Ok "http://a/b/c/d;p?y".
Proof. reflexivity. Qed.

Example urljoin_protocol_relative :
  urljoin "https://example.com/blog/post" "//cdn.other.com/x.js" =
  Ok "https://cdn.other.com/x.js".
Proof. reflexivity. Qed.

Example posix_join_ex : posix_join "site_files" "a.png" = "site_files/a.png".
Proof. reflexivity. Qed.

Example nt_join_ex : nt_join "site_files" "a.png" = "site_files\a.png".
Proof. reflexivity. Qed.

Example nt_join_drive : nt_join "C:\x" "D:y" = "D:y".
Proof. reflexivity. Qed.

Example splitext_ex : splitext "/assets/app.min.css" = ("/assets/app.min", ".css").
Proof. reflexivity. Qed.

Example splitext_hidden : splitext "/assets/.profile" = ("/assets/.profile", "").
Proof. reflexivity. Qed.

Example plain_path_ex : plain_path "assets/app.css".
Proof.
  split; repeat constructor; try reflexivity; discriminate.
Qed.

Example get_full_link_empty :
  get_full_link "" "https://example.com/blog/post" = Ok "https://example.com".
Proof. reflexivity. Qed.

Example get_full_link_protocol_relative :
  get_full_link "//example.com/a.png" "https://example.com/blog/post"
  = Ok "//example.com/a.png".
Proof. reflexivity. Qed.

Example create_resource_name_root :
  create_resource_name "https://example.com/" = Ok "example-com-.html".
Proof. reflexivity. Qed.

(** The page of the scenario of the specification: the image and the
    stylesheet are local, the script is not. *)
Example search_resources_scenario :
  search_resources posix (fun _ => "example-com-blog-post_files")
    [Tag "html" ∅
       [Tag "img" {["src" := "/images/a.png"]} [];
        Tag "script" {["src" := "https://cdn.other.com/x.js"]} [];
        Tag "link" {["href" := "style.css"]} []]]
    "https://example.com/blog/post"
  = Ok ([Tag "html" ∅
           [Tag "img"
              {["src" := "example-com-blog-post_files/example-com-images-a.png"]} [];
            Tag "script" {["src" := "https://cdn.other.com/x.js"]} [];
            Tag "link"
              {["href" := "example-com-blog-post_files/example-com-style.css"]} []]],
        [mkResource "https://example.com/images/a.png" "example-com-images-a.png";
         mkResource "https://example.com/style.css" "example-com-style.css"]).
Proof. vm_compute. reflexivity. Qed.

(** * Further properties *)

(** ** Resolution and locality of every link *)

Lemma own_scheme_true l p :
  own_scheme l p = true <-> scheme l = "" \/ scheme l = scheme p.
Proof.
  unfold own_scheme. rewrite orb_true_iff, is_empty_true, String.eqb_eq. tauto.
Qed.

Lemma own_scheme_false l p :
  own_scheme l p = false <-> scheme l ≠ "" /\ scheme l ≠ scheme p.
Proof.
  unfold own_scheme. rewrite orb_false_iff, is_empty_false, String.eqb_neq. tauto.
Qed.

(** A link with a scheme that is not the page's is not joined at all. *)
Lemma urljoin_foreign s n link l :
  s = "http" \/ s = "https" -> netloc_ok n ->
  urlparse link "" = Ok l -> scheme l ≠ "" -> scheme l ≠ s ->
  urljoin (DOMAIN_ADDRESS s n) link = Ok link.
Proof.
  intros Hs Hn Hl Hscheme Hforeign. unfold urljoin.
  replace (Str.is_empty (DOMAIN_ADDRESS s n)) with false
    by (destruct Hs as [-> | ->]; reflexivity).
  destruct (Str.is_empty link) eqn:Hempty.
  { apply is_empty_true in Hempty. subst link.
    vm_compute in Hl. injection Hl as <-. contradiction. }
  rewrite (urlparse_domain_address _ _ Hs Hn), bind_Ok.
  rewrite (urlparse_default _ _ _ Hs Hl), bind_Ok.
  apply is_empty_false in Hscheme. rewrite Hscheme.
  destruct l as [ls ln lp lpa lq lf]. simpl in Hforeign.
  apply String.eqb_neq in Hforeign. cbn [scheme]. now rewrite Hforeign.
Qed.

(** For a well-formed page URL, every link the URL parser accepts resolves,
    to a URL the parser accepts again and that resolves to itself. *)
Lemma get_full_link_resolves link page_url p l :
  well_formed_page page_url p ->
  urlparse link "" = Ok l ->
  exists full r,
    get_full_link link page_url = Ok full
    /\ urlparse full "" = Ok r
    /\ get_full_link full page_url = Ok full
    /\ netloc r =
       if Str.is_empty (netloc l)
       then if own_scheme l p then netloc p else ""
       else netloc l.
Proof.
  intros Hpage Hl. pose proof Hpage as (Hp & Hscheme & Hhost).
  destruct (Str.is_empty (netloc l)) eqn:Hnet.
  - apply is_empty_true in Hnet. destruct (own_scheme l p) eqn:Hown.
    + apply own_scheme_true in Hown.
      destruct (get_full_link_inherits _ _ _ _ Hpage Hl Hnet Hown)
        as (full & r & Hfull & Hr & _ & Hrn).
      exists full, r. repeat split; try assumption.
      apply (get_full_link_with_netloc _ _ _ _ Hp Hr). now rewrite Hrn.
    + apply own_scheme_false in Hown as [Hsome Hforeign].
      assert (Hfull : get_full_link link page_url = Ok link).
      { rewrite (get_full_link_unfold _ _ _ _ Hp Hl), Hnet. simpl.
        apply (urljoin_foreign _ _ _ l); auto.
        exact (urlparse_netloc_ok _ _ _ Hp). }
      exists link, l. repeat split; assumption.
  - apply is_empty_false in Hnet.
    assert (Hfull : get_full_link link page_url = Ok link)
      by exact (get_full_link_with_netloc _ _ _ _ Hp Hl Hnet).
    exists link, l. repeat split; assumption || reflexivity.
Qed.

(** X1. For a well-formed page URL, [get_full_link] returns for every link
    the URL parser accepts, and it is idempotent: the link it returns
    resolves to itself. *)
Theorem get_full_link_idempotent link page_url p l :
  well_formed_page page_url p ->
  urlparse link "" = Ok l ->
  exists full,
    get_full_link link page_url = Ok full
    /\ get_full_link full page_url = Ok full.
Proof.
  intros Hpage Hl.
  destruct (get_full_link_resolves _ _ _ _ Hpage Hl) as (full & r & H1 & _ & H2 & _).
  eauto.
Qed.

Lemma get_full_link_idempotent_witness :
  exists full,
    get_full_link "../img/logo.png?v=2" "https://example.com/blog/post" = Ok full
    /\ get_full_link full "https://example.com/blog/post" = Ok full.
Proof.
  apply (get_full_link_idempotent "../img/logo.png?v=2"
           "https://example.com/blog/post"
           (mkParseResult "https" "example.com" "/blog/post" "" "" "")
           (mkParseResult "" "" "../img/logo.png" "" "v=2" "")).
  - split; [reflexivity|]. split; [right; reflexivity | discriminate].
  - reflexivity.
Defined.

Lemma resolved_netloc_eqb (l p : ParseResult) :
  netloc p ≠ "" ->
  String.eqb (if Str.is_empty (netloc l)
              then if own_scheme l p then netloc p else ""
              else netloc l) (netloc p)
  = String.eqb (netloc l) (netloc p)
    || (Str.is_empty (netloc l) && own_scheme l p).
Proof.
  intros Hhost. destruct (Str.is_empty (netloc l)) eqn:Hnet.
  - apply is_empty_true in Hnet. rewrite Hnet.
    destruct (netloc p) as [|c n]; [contradiction|].
    destruct (own_scheme l p); [apply String.eqb_refl | reflexivity].
  - now rewrite andb_false_l, orb_false_r.
Qed.

(** X2. Which raw links are downloaded.  For a well-formed page URL, the
    link [get_full_link] returns is local exactly when the raw link names
    the network location of the page, or names no network location and no
    scheme other than the page's. *)
Theorem resolved_link_local_iff link page_url p l :
  well_formed_page page_url p ->
  urlparse link "" = Ok l ->
  exists full,
    get_full_link link page_url = Ok full
    /\ is_local_link full page_url
       = Ok (String.eqb (netloc l) (netloc p)
             || (Str.is_empty (netloc l) && own_scheme l p)).
Proof.
  intros Hpage Hl. pose proof Hpage as (Hp & _ & Hhost).
  destruct (get_full_link_resolves _ _ _ _ Hpage Hl)
    as (full & r & Hfull & Hr & _ & Hrn).
  exists full. split; [exact Hfull|].
  rewrite (is_local_link_unfold _ _ _ _ Hr Hp), Hrn. f_equal.
  now apply resolved_netloc_eqb.
Qed.

Lemma resolved_link_local_iff_witness :
  exists full,
    get_full_link "mailto:webmaster@example.com" "https://example.com/blog/post"
    = Ok full
    /\ is_local_link full "https://example.com/blog/post"
       = Ok (String.eqb "" "example.com"
             || (Str.is_empty ""
                 && own_scheme
                      (mkParseResult "mailto" "" "webmaster@example.com" "" "" "")
                      (mkParseResult "https" "example.com" "/blog/post" "" "" ""))).
Proof.
  apply (resolved_link_local_iff "mailto:webmaster@example.com"
           "https://example.com/blog/post"
           (mkParseResult "https" "example.com" "/blog/post" "" "" "")
           (mkParseResult "mailto" "" "webmaster@example.com" "" "" "")).
  - split; [reflexivity|]. split; [right; reflexivity | discriminate].
  - reflexivity.
Defined.

(** ** When the transformation returns and when it raises *)

Lemma collect_returns {A B} (f : A -> result B) l :
  (forall x, x ∈ l -> exists y, f x = Ok y) ->
  exists ys, collect f l = Ok ys.
Proof.
  induction l as [|x l IH]; intros Hall; simpl; [eauto|].
  destruct (Hall x (list_elem_of_here _ _)) as [y ->].
  destruct IH as [ys ->]; [intros x' Hx'; apply Hall; now right|].
  rewrite !bind_Ok. eauto.
Qed.

Lemma collect_raises {A B} (f : A -> result B) l x e :
  x ∈ l -> f x = Raise e ->
  exists x' e', x' ∈ l /\ f x' = Raise e' /\ collect f l = Raise e'.
Proof.
  induction l as [|a l IH]; intros Hin Hx; [now apply elem_of_nil in Hin|].
  simpl. destruct (f a) as [y|e0] eqn:Ha.
  - apply elem_of_cons in Hin as [Heq | Hin]; [subst; congruence|].
    destruct (IH Hin Hx) as (x' & e' & Hx' & Hfx' & ->).
    exists x', e'. rewrite bind_Ok. repeat split; [now right | exact Hfx'].
  - exists a, e0. repeat split; [now left | exact Ha].
Qed.

Lemma collect_elem {A B} (f : A -> result (option B)) l ys x y :
  collect f l = Ok ys -> x ∈ l -> f x = Ok (Some y) -> y ∈ somes ys.
Proof.
  revert ys. induction l as [|a l IH]; intros ys Hrun Hin Hx;
    [now apply elem_of_nil in Hin|].
  simpl in Hrun. inv_result.
  match goal with
  | Ha : f a = Ok ?o, Hl : collect f l = Ok ?os |- _ =>
      apply elem_of_cons in Hin as [-> | Hin];
      [rewrite Hx in Ha; injection Ha as <-; now left
      |specialize (IH os Hl Hin Hx); destruct o; [now right | exact IH]]
  end.
Qed.

Lemma urlsplit_raises url default e :
  urlsplit url default = Raise e -> e = ValueError.
Proof.
  unfold urlsplit.
  destruct (if (_ >? 0) && _ then _ else _) as [scheme1 url1].
  destruct (String.eqb (Str.slice_to url1 2) "//").
  - destruct (_splitnetloc url1 2) as [netloc1 url2].
    destruct (unbalanced_brackets netloc1); [now intros [= <-]|].
    rewrite bind_Ok.
    destruct (if Str.contains "#" _ then _ else _) as [url3 fragment1].
    destruct (if Str.contains "?" _ then _ else _) as [url4 query1].
    discriminate.
  - rewrite bind_Ok.
    destruct (if Str.contains "#" _ then _ else _) as [url3 fragment1].
    destruct (if Str.contains "?" _ then _ else _) as [url4 query1].
    discriminate.
Qed.

Lemma urlparse_raises url default e :
  urlparse url default = Raise e -> e = ValueError.
Proof.
  unfold urlparse. destruct (urlsplit url default) as [[s n u q f]|e'] eqn:Hsplit.
  - rewrite bind_Ok.
    destruct (if str_in s uses_params && _ then _ else _) as [url' params'].
    discriminate.
  - intros [= <-]. exact (urlsplit_raises _ _ _ Hsplit).
Qed.

Lemma urljoin_raises base url e : urljoin base url = Raise e -> e = ValueError.
Proof.
  unfold urljoin. destruct (Str.is_empty base); [discriminate|].
  destruct (Str.is_empty url); [discriminate|].
  destruct (urlparse base "") as [[bs bn bp bpa bq bf]|e1] eqn:Hbase;
    [|intros [= <-]; exact (urlparse_raises _ _ _ Hbase)].
  rewrite bind_Ok.
  destruct (urlparse url bs) as [[s n p pa q f]|e2] eqn:Hurl;
    [|intros [= <-]; exact (urlparse_raises _ _ _ Hurl)].
  rewrite bind_Ok.
  repeat match goal with
    | |- (if ?b then _ else _) = Raise _ -> _ => destruct b
    | |- (let _ := _ in _) = Raise _ -> _ => cbv zeta
    end; discriminate.
Qed.

Lemma get_full_link_raises link page_url e :
  get_full_link link page_url = Raise e -> e = ValueError.
Proof.
  unfold get_full_link.
  destruct (urlparse page_url "") as [p|e1] eqn:Hp;
    [|intros [= <-]; exact (urlparse_raises _ _ _ Hp)].
  simpl. destruct (urlparse link "") as [l|e2] eqn:Hl;
    [|intros [= <-]; exact (urlparse_raises _ _ _ Hl)].
  simpl. destruct (Str.is_empty (netloc l)); [apply urljoin_raises | discriminate].
Qed.

Lemma is_local_link_raises link page_url e :
  is_local_link link page_url = Raise e -> e = ValueError.
Proof.
  unfold is_local_link.
  destruct (urlparse link "") as [l|e1] eqn:Hl;
    [|intros [= <-]; exact (urlparse_raises _ _ _ Hl)].
  simpl. destruct (urlparse page_url "") as [p|e2] eqn:Hp;
    [discriminate | intros [= <-]; exact (urlparse_raises _ _ _ Hp)].
Qed.

Lemma create_resource_name_raises link e :
  create_resource_name link = Raise e -> e = ValueError.
Proof.
  unfold create_resource_name, parse_url.
  destruct (urlparse link "") as [l|e1] eqn:Hl;
    [|intros [= <-]; exact (urlparse_raises _ _ _ Hl)].
  rewrite bind_Ok. destruct (splitext (path l)). discriminate.
Qed.

Lemma create_resource_name_returns link l :
  urlparse link "" = Ok l ->
  exists resource_name, create_resource_name link = Ok resource_name.
Proof.
  intros Hl. rewrite (create_resource_name_unfold _ _ Hl).
  destruct (splitext (path l)). eauto.
Qed.

Lemma table_getitem_raises table key e :
  table_getitem table key = Raise e -> e = KeyError.
Proof.
  induction table as [|[k v] table IH]; [now intros [= <-]|].
  change (table_getitem ((k, v) :: table) key)
    with (if String.eqb k key then Ok v else table_getitem table key).
  destruct (String.eqb k key); [discriminate | exact IH].
Qed.

Lemma tag_resource_raises page_url soup tag e :
  tag_resource page_url soup tag = Raise e -> e = KeyError \/ e = ValueError.
Proof.
  unfold tag_resource. destruct (tag_info soup tag) as [info|]; [|discriminate].
  unfold info_resource, local_resource.
  destruct (table_getitem TAGS_LINK_ATTRIBUTES info.1) as [link_attr|e1] eqn:Hattr;
    [|intros [= <-]; left; exact (table_getitem_raises _ _ _ Hattr)].
  rewrite bind_Ok. unfold getitem.
  destruct (info.2 !! link_attr) as [raw|]; [|intros [= <-]; now left].
  rewrite bind_Ok.
  destruct (get_full_link raw page_url) as [full|e2] eqn:Hfull;
    [|intros [= <-]; right; exact (get_full_link_raises _ _ _ Hfull)].
  rewrite bind_Ok.
  destruct (is_local_link full page_url) as [[]|e3] eqn:Hlocal;
    [| discriminate | intros [= <-]; right; exact (is_local_link_raises _ _ _ Hlocal)].
  rewrite bind_Ok.
  destruct (create_resource_name full) as [resource_name|e4] eqn:Hname;
    [discriminate | intros [= <-]; right; exact (create_resource_name_raises _ _ Hname)].
Qed.

(** What becomes of a raw link the parser accepts, on a well-formed page:
    the resource of the resolved link when it is local, nothing
    otherwise. *)
Lemma local_resource_returns page_url p raw l :
  well_formed_page page_url p ->
  urlparse raw "" = Ok l ->
  exists full,
    get_full_link raw page_url = Ok full
    /\ if String.eqb (netloc l) (netloc p)
          || (Str.is_empty (netloc l) && own_scheme l p)
       then exists resource_name,
           local_resource page_url raw = Ok (Some (mkResource full resource_name))
       else local_resource page_url raw = Ok None.
Proof.
  intros Hpage Hl. pose proof Hpage as (Hp & _ & Hhost).
  destruct (get_full_link_resolves _ _ _ _ Hpage Hl)
    as (full & r & Hfull & Hr & _ & Hrn).
  exists full. split; [exact Hfull|].
  unfold local_resource.
  rewrite Hfull, bind_Ok, (is_local_link_unfold _ _ _ _ Hr Hp), bind_Ok, Hrn.
  rewrite (resolved_netloc_eqb l p Hhost).
  destruct (_ || _); [|reflexivity].
  destruct (create_resource_name_returns _ _ Hr) as [resource_name ->].
  rewrite bind_Ok. eauto.
Qed.

Section transform_more.

Context (os : os_name) (get_dir_name : string -> string).

Lemma search_resources_resources soup page_url :
  snd <$> search_resources os get_dir_name soup page_url
  = resources_of page_url soup (visit_order soup).
Proof.
  pose proof (search_resources_spec os get_dir_name soup page_url) as Hspec.
  unfold resources_of.
  destruct (collect _ (visit_order soup)) as [outcomes|e].
  - destruct Hspec as (soup' & -> & _). reflexivity.
  - rewrite Hspec. reflexivity.
Qed.

Lemma table_getitem_of_known tag_name :
  str_in tag_name TAGS_LINK_ATTRIBUTES.*1 = true ->
  exists link_attr, table_getitem TAGS_LINK_ATTRIBUTES tag_name = Ok link_attr.
Proof.
  intros [-> | [-> | ->]]%(str_in_known get_dir_name); eexists; reflexivity.
Qed.

Lemma collect_each {A B} (f : A -> result B) l ys x :
  collect f l = Ok ys -> x ∈ l -> exists y, f x = Ok y.
Proof.
  revert ys. induction l as [|a l IH]; intros ys Hrun Hin;
    [now apply elem_of_nil in Hin|].
  simpl in Hrun. inv_result.
  apply elem_of_cons in Hin as [-> | Hin]; eauto.
Qed.

Lemma get_full_link_parses raw page_url full :
  get_full_link raw page_url = Ok full -> exists l, urlparse raw "" = Ok l.
Proof. unfold get_full_link. intros H. inv_result. eauto. Qed.

(** X3. On a well-formed page, the transformation returns exactly when
    every tag of the three kinds has its link attribute, with a value the
    URL parser accepts. *)
Theorem search_resources_returns_iff soup page_url p :
  well_formed_page page_url p ->
  (exists soup' resources,
      search_resources os get_dir_name soup page_url = Ok (soup', resources))
  <-> (forall tag tag_name attrs link_attr,
          tag_info soup tag = Some (tag_name, attrs) ->
          table_getitem TAGS_LINK_ATTRIBUTES tag_name = Ok link_attr ->
          exists raw l, attrs !! link_attr = Some raw /\ urlparse raw "" = Ok l).
Proof.
  intros Hpage.
  pose proof (search_resources_spec os get_dir_name soup page_url) as Hspec.
  split.
  - intros (soup' & resources & Hrun) tag tag_name attrs link_attr Htag Hattr.
    destruct (collect _ (visit_order soup)) as [outcomes|e] eqn:Hcollect;
      [|congruence].
    assert (Hin : tag ∈ visit_order soup).
    { apply (elem_of_visit_order get_dir_name). exists tag_name, attrs.
      split; [exact Htag|].
      eapply (str_in_known get_dir_name), table_getitem_known, Hattr. }
    destruct (collect_each _ _ _ _ Hcollect Hin) as [outcome Houtcome].
    unfold tag_resource in Houtcome. rewrite Htag in Houtcome.
    unfold info_resource in Houtcome. cbn [fst snd] in Houtcome.
    rewrite Hattr, bind_Ok in Houtcome. unfold getitem in Houtcome.
    destruct (attrs !! link_attr) as [raw|]; [|discriminate].
    rewrite bind_Ok in Houtcome. unfold local_resource in Houtcome.
    destruct (get_full_link raw page_url) as [full|e] eqn:Hfull; [|discriminate].
    destruct (get_full_link_parses _ _ _ Hfull) as [l Hl]. eauto.
  - intros Hall.
    destruct (collect_returns (tag_resource page_url soup) (visit_order soup))
      as [outcomes Hcollect].
    { intros tag
        (tag_name & attrs & Htag & Hkind)%(elem_of_visit_order get_dir_name).
      destruct (table_getitem_of_known _ Hkind) as [link_attr Hattr].
      destruct (Hall _ _ _ _ Htag Hattr) as (raw & l & Hraw & Hl).
      unfold tag_resource. rewrite Htag. unfold info_resource. cbn [fst snd].
      rewrite Hattr, bind_Ok. unfold getitem. rewrite Hraw, bind_Ok.
      destruct (local_resource_returns _ _ _ _ Hpage Hl) as (full & _ & Hlocal).
      destruct (_ || _); [destruct Hlocal as [resource_name ->] | rewrite Hlocal];
        eauto. }
    rewrite Hcollect in Hspec. destruct Hspec as (soup' & Hrun & _). eauto.
Qed.

(** X4. One tag of the three kinds without its link attribute makes the
    whole transformation raise, wherever the tag is; the exception is
    [KeyError], or the [ValueError] of a link visited before it. *)
Theorem search_resources_missing_attribute soup page_url tag tag_name attrs link_attr :
  tag_info soup tag = Some (tag_name, attrs) ->
  table_getitem TAGS_LINK_ATTRIBUTES tag_name = Ok link_attr ->
  attrs !! link_attr = None ->
  exists e,
    search_resources os get_dir_name soup page_url = Raise e
    /\ (e = KeyError \/ e = ValueError).
Proof.
  intros Htag Hattr Hmissing.
  assert (Hin : tag ∈ visit_order soup).
  { apply (elem_of_visit_order get_dir_name). exists tag_name, attrs.
    split; [exact Htag|].
    eapply (str_in_known get_dir_name), table_getitem_known, Hattr. }
  assert (Hraise : tag_resource page_url soup tag = Raise KeyError).
  { unfold tag_resource. rewrite Htag. unfold info_resource. cbn [fst snd].
    rewrite Hattr, bind_Ok. unfold getitem. now rewrite Hmissing. }
  destruct (collect_raises _ _ _ _ Hin Hraise) as (tag' & e & _ & Htag' & Hcollect).
  pose proof (search_resources_spec os get_dir_name soup page_url) as Hspec.
  rewrite Hcollect in Hspec. exists e. split; [exact Hspec|].
  exact (tag_resource_raises _ _ _ _ Htag').
Qed.

End transform_more.

Lemma search_resources_returns_iff_witness :
  (exists soup' resources,
      search_resources posix (fun _ => "example-com_files")
        [Tag "p" ∅ [Tag "img" {["src" := "/b.png"]} []; NavigableString "text"]]
        "https://example.com/" = Ok (soup', resources))
  <-> (forall tag tag_name attrs link_attr,
          tag_info
            [Tag "p" ∅ [Tag "img" {["src" := "/b.png"]} []; NavigableString "text"]]
            tag = Some (tag_name, attrs) ->
          table_getitem TAGS_LINK_ATTRIBUTES tag_name = Ok link_attr ->
          exists raw l, attrs !! link_attr = Some raw /\ urlparse raw "" = Ok l).
Proof.
  apply (search_resources_returns_iff posix (fun _ => "example-com_files")
           [Tag "p" ∅ [Tag "img" {["src" := "/b.png"]} []; NavigableString "text"]]
           "https://example.com/"
           (mkParseResult "https" "example.com" "/" "" "" "")).
  split; [reflexivity|]. split; [right; reflexivity | discriminate].
Defined.

Lemma search_resources_missing_attribute_witness :
  exists e,
    search_resources posix (fun _ => "example-com_files")
      [Tag "body" ∅
         [Tag "img" {["src" := "/b.png"]} [];
          Tag "script" ∅ [NavigableString "console.log(1)"]]]
      "https://example.com/" = Raise e
    /\ (e = KeyError \/ e = ValueError).
Proof.
  apply (search_resources_missing_attribute posix (fun _ => "example-com_files")
           [Tag "body" ∅
              [Tag "img" {["src" := "/b.png"]} [];
               Tag "script" ∅ [NavigableString "console.log(1)"]]]
           "https://example.com/" [0%nat; 1%nat] "script" ∅ "src");
    reflexivity.
Defined.

(** ** What the transformation changes and what it leaves *)

Lemma fmap_alter_same {A B} (f : A -> B) (g : A -> A) (i : nat) (l : list A) :
  (forall x, f (g x) = f x) -> f <$> alter g i l = f <$> l.
Proof.
  intros Hsame. revert i. induction l as [|x l IH]; intros [|i]; simpl;
    try reflexivity.
  - now rewrite Hsame.
  - f_equal. apply IH.
Qed.

Lemma erase_attrs_alter_ref key value tag soup :
  erase_attrs <$> alter_ref (set_attr key value) tag soup = erase_attrs <$> soup.
Proof.
  revert soup. induction tag as [|i tag IH]; intros soup; [reflexivity|].
  simpl alter_ref. apply fmap_alter_same. intros e.
  destruct tag as [|j tag]; [destruct e; reflexivity|].
  destruct e as [tag_name attrs contents|text]; [|reflexivity].
  simpl erase_attrs. f_equal. apply (IH contents).
Qed.

Section transform_frame.

Context (os : os_name) (get_dir_name : string -> string).

Lemma process_tag_erase_attrs page_url dir_name tag soup resources soup' resources' :
  process_tag os page_url dir_name tag (soup, resources) = Ok (soup', resources') ->
  erase_attrs <$> soup' = erase_attrs <$> soup.
Proof.
  rewrite process_tag_unfold.
  destruct (tag_info soup tag) as [info|]; [|now intros [= <- _]].
  destruct (table_getitem TAGS_LINK_ATTRIBUTES info.1) as [link_attr|e];
    [|discriminate].
  destruct (info_resource page_url info) as [[resource|]|e];
    [| now intros [= <- _] | discriminate].
  intros [= <- _]. apply erase_attrs_alter_ref.
Qed.

(** X5. The transformation changes attribute values and nothing else: the
    tree it returns has the same tags, with the same names, the same text
    and the same nesting as the tree it was given. *)
Theorem search_resources_keeps_structure soup page_url soup' resources :
  search_resources os get_dir_name soup page_url = Ok (soup', resources) ->
  erase_attrs <$> soup' = erase_attrs <$> soup.
Proof.
  unfold search_resources. intros Hrun.
  apply (for_each_invariant
           (fun state => erase_attrs <$> state.1 = erase_attrs <$> soup)) in Hrun;
    [exact Hrun | | reflexivity].
  intros resource_tag [s rs] [s' rs'] Hs Hinner. simpl in *.
  apply (for_each_invariant
           (fun state => erase_attrs <$> state.1 = erase_attrs <$> soup)) in Hinner;
    [exact Hinner | | exact Hs].
  intros tag [s1 rs1] [s2 rs2] H1 Hstep. simpl in *.
  rewrite <- H1. eapply process_tag_erase_attrs, Hstep.
Qed.

(** X6. The transformation leaves every tag whose link is not local as it
    was, with all its attributes, and so every tag of another kind; at a
    tag whose link is local it changes the link attribute and no other. *)
Theorem search_resources_leaves_others soup page_url soup' resources :
  search_resources os get_dir_name soup page_url = Ok (soup', resources) ->
  forall tag tag_name attrs,
    tag_info soup tag = Some (tag_name, attrs) ->
    ((forall resource,
         info_resource page_url (tag_name, attrs) ≠ Ok (Some resource)) ->
     tag_info soup' tag = Some (tag_name, attrs))
    /\ (forall link_attr,
          table_getitem TAGS_LINK_ATTRIBUTES tag_name = Ok link_attr ->
          exists attrs',
            tag_info soup' tag = Some (tag_name, attrs')
            /\ forall key, key ≠ link_attr -> attrs' !! key = attrs !! key).
Proof.
  intros Hrun tag tag_name attrs Htag.
  apply search_resources_Ok in Hrun as [_ Hinv].
  pose proof (rewritten_all os get_dir_name _ _ _ _ Hinv tag) as Hinfo.
  rewrite Htag in Hinfo. simpl in Hinfo. unfold rewrite_info in Hinfo.
  cbn [fst snd] in Hinfo. split.
  - intros Hnot. rewrite Hinfo.
    destruct (table_getitem TAGS_LINK_ATTRIBUTES tag_name); [|reflexivity].
    destruct (info_resource page_url (tag_name, attrs)) as [[resource|]|e];
      [now destruct (Hnot resource) | reflexivity | reflexivity].
  - intros link_attr Hattr. rewrite Hattr in Hinfo.
    destruct (info_resource page_url (tag_name, attrs)) as [[resource|]|e];
      eexists; (split; [exact Hinfo|]); intros key Hkey; [|reflexivity..].
    now rewrite lookup_insert_ne.
Qed.

(** X7. On a well-formed page, a tag with an empty link attribute is not
    skipped: the empty link resolves to the origin [scheme://netloc] of the
    page, which is local, so the attribute is rewritten and the origin is
    among the resources to fetch. *)
Theorem search_resources_empty_link soup page_url p soup' resources
    tag tag_name attrs link_attr :
  well_formed_page page_url p ->
  search_resources os get_dir_name soup page_url = Ok (soup', resources) ->
  tag_info soup tag = Some (tag_name, attrs) ->
  table_getitem TAGS_LINK_ATTRIBUTES tag_name = Ok link_attr ->
  attrs !! link_attr = Some "" ->
  exists resource_name,
    tag_info soup' tag
    = Some (tag_name,
            <[link_attr := os_path_join os (get_dir_name page_url) resource_name]>
              attrs)
    /\ mkResource (DOMAIN_ADDRESS (scheme p) (netloc p)) resource_name ∈ resources.
Proof.
  intros Hpage Hrun Htag Hattr Hempty. pose proof Hpage as (Hp & Hscheme & Hhost).
  destruct (local_resource_returns page_url p ""
              (mkParseResult "" "" "" "" "" "") Hpage eq_refl)
    as (full & Hfull & Hlocal).
  assert (full = DOMAIN_ADDRESS (scheme p) (netloc p)) as ->.
  { rewrite (get_full_link_unfold "" page_url p
               (mkParseResult "" "" "" "" "" "") Hp eq_refl) in Hfull.
    unfold urljoin in Hfull. cbn [netloc Str.is_empty] in Hfull.
    replace (Str.is_empty (DOMAIN_ADDRESS (scheme p) (netloc p))) with false
      in Hfull by (destruct Hscheme as [-> | ->]; reflexivity).
    now injection Hfull. }
  replace (String.eqb (netloc (mkParseResult "" "" "" "" "" "")) (netloc p)
           || (Str.is_empty (netloc (mkParseResult "" "" "" "" "" ""))
               && own_scheme (mkParseResult "" "" "" "" "" "") p))
    with true in Hlocal by (cbn; now rewrite orb_true_r).
  destruct Hlocal as [resource_name Hlocal]. exists resource_name.
  assert (Hresource : info_resource page_url (tag_name, attrs)
                      = Ok (Some (mkResource (DOMAIN_ADDRESS (scheme p) (netloc p))
                                    resource_name))).
  { unfold info_resource. cbn [fst snd]. rewrite Hattr, bind_Ok.
    unfold getitem. now rewrite Hempty, bind_Ok. }
  apply search_resources_Ok in Hrun as [Hresources Hinv]. split.
  - rewrite (rewritten_all os get_dir_name _ _ _ _ Hinv), Htag. simpl.
    unfold rewrite_info. cbn [fst snd]. now rewrite Hattr, Hresource.
  - unfold resources_of in Hresources.
    destruct (collect _ (visit_order soup)) as [outcomes|e] eqn:Hcollect;
      [|discriminate].
    injection Hresources as <-.
    eapply (collect_elem _ _ _ tag _ Hcollect).
    + apply (elem_of_visit_order get_dir_name). exists tag_name, attrs.
      split; [exact Htag|].
      eapply (str_in_known get_dir_name), table_getitem_known, Hattr.
    + unfold tag_resource. rewrite Htag. exact Hresource.
Qed.

(** X8. The resource list, or the exception, depends on the tree and the
    page URL only: the host and the name of the resource directory play no
    part in which resources are found, nor in their order. *)
Theorem search_resources_same_resources (os' : os_name)
    (get_dir_name' : string -> string) soup page_url :
  snd <$> search_resources os get_dir_name soup page_url
  = snd <$> search_resources os' get_dir_name' soup page_url.
Proof.
  rewrite (search_resources_resources os get_dir_name).
  symmetry. apply search_resources_resources.
Qed.

End transform_frame.

(** ** More on fetching and saving *)

Lemma files_after_app trace events :
  files_after (trace ++ events) = foldl write_event (files_after trace) events.
Proof. apply foldl_app. Qed.

Lemma write_events_other path events files :
  (forall content, Written path content ∉ events) ->
  foldl write_event files events !! path = files !! path.
Proof.
  revert files. induction events as [|ev events IH]; intros files Hnot;
    [reflexivity|].
  simpl. rewrite IH.
  - destruct ev as [url|path' content]; [reflexivity|]. simpl.
    apply lookup_insert_ne. intros ->. apply (Hnot content). left.
  - intros content Hin. apply (Hnot content). now right.
Qed.

Section fetcher_more.

Context (os : os_name) (requests_get : string -> result Response)
  (write_binary : string -> string -> result unit).

Local Abbreviation saved := (saved os requests_get write_binary).
Local Abbreviation save_events := (save_events os requests_get).

Lemma save_events_event_of dir_path resources ev :
  ev ∈ flat_map (save_events dir_path) resources ->
  event_of os dir_path resources ev.
Proof.
  rewrite list_elem_of_In, in_flat_map.
  intros (resource & Hin%list_elem_of_In & Hev%list_elem_of_In).
  exists resource. split; [exact Hin|]. unfold save_events in Hev.
  destruct (requests_get (link resource)) as [response|e].
  - apply elem_of_cons in Hev as [-> | ->%list_elem_of_singleton];
      [now left | right; now exists (content response)].
  - apply list_elem_of_singleton in Hev as ->. now left.
Qed.

Lemma save_resources_returns_saved resources dir_path trace :
  (save_resources os requests_get write_binary resources dir_path trace).1 = Ok () ->
  Forall (saved dir_path) resources.
Proof.
  revert trace. induction resources as [|resource resources IH]; intros trace;
    [constructor|].
  rewrite save_resources_cons.
  destruct (requests_get (link resource)) as [response|e] eqn:Hget;
    [|discriminate].
  cbv zeta.
  destruct (write_binary _ (content response)) as [[]|e] eqn:Hwrite;
    [|discriminate].
  intros Hrest. constructor; [now exists response | eapply IH, Hrest].
Qed.

Lemma save_resources_trace_take resources dir_path trace :
  exists n,
    (save_resources os requests_get write_binary resources dir_path trace).2
    = trace ++ take n (flat_map (save_events dir_path) resources).
Proof.
  revert trace. induction resources as [|resource resources IH]; intros trace.
  - exists 0%nat. symmetry. apply app_nil_r.
  - rewrite save_resources_cons. cbn [flat_map]. unfold save_events at 1.
    destruct (requests_get (link resource)) as [response|e].
    + cbv zeta.
      destruct (write_binary _ (content response)) as [[]|e].
      * destruct (IH (trace ++ [Requested (link resource);
                                Written (os_path_join os dir_path (name resource))
                                  (content response)]))
          as (n & ->).
        exists (S (S n)). now rewrite <- app_assoc.
      * now exists 1%nat.
    + now exists 1%nat.
Qed.

(** X9. Saving a list of resources returns if and only if every resource
    of the list is saved: each request returns a response and each write
    succeeds.  There is no other way to success, and no other way to an
    exception. *)
Theorem save_resources_returns_iff resources dir_path trace :
  (save_resources os requests_get write_binary resources dir_path trace).1 = Ok ()
  <-> Forall (saved dir_path) resources.
Proof.
  split; [apply save_resources_returns_saved|].
  intros Hall. now rewrite save_resources_saved.
Qed.

(** X10. Whatever the outcome, [save_resources] only extends the trace,
    and what it adds is an initial part of the schedule of the list: the
    request of the first resource, its write, the request of the second,
    and so on.  So nothing is requested or written out of order, twice, or
    for something that is not in the list. *)
Theorem save_resources_trace_prefix resources dir_path trace :
  exists events,
    (save_resources os requests_get write_binary resources dir_path trace).2
    = trace ++ events
    /\ events `prefix_of` flat_map (save_events dir_path) resources.
Proof.
  destruct (save_resources_trace_take resources dir_path trace) as [n Htrace].
  eexists. split; [exact Htrace | apply prefix_take].
Qed.

(** X11. Saving two lists one after the other is saving their
    concatenation: the second run starts from the trace the first one
    left, and does not start when the first one raised. *)
Theorem save_resources_append resources1 resources2 dir_path trace :
  save_resources os requests_get write_binary (resources1 ++ resources2)
    dir_path trace
  = (_ ← save_resources os requests_get write_binary resources1 dir_path;
     save_resources os requests_get write_binary resources2 dir_path) trace.
Proof.
  revert trace. induction resources1 as [|resource resources1 IH]; intros trace;
    [reflexivity|].
  rewrite <- app_comm_cons, save_resources_cons.
  unfold mbind, io_bind at 1. rewrite save_resources_cons.
  destruct (requests_get (link resource)) as [response|e]; [|reflexivity].
  cbv zeta. destruct (write_binary _ (content response)) as [[]|e];
    [|reflexivity].
  apply IH.
Qed.

(** X12. The status code of a response plays no part: with a server whose
    responses carry any other status codes, the same files are written with
    the same content and the outcome is the same. *)
Theorem save_resources_ignores_status (restatus : string -> Response -> Z)
    resources dir_path trace :
  save_resources os
    (fun url =>
       (fun response => with_status (restatus url response) response)
         <$> requests_get url)
    write_binary resources dir_path trace
  = save_resources os requests_get write_binary resources dir_path trace.
Proof.
  revert trace. induction resources as [|resource resources IH]; intros trace;
    [reflexivity|].
  rewrite !save_resources_cons.
  destruct (requests_get (link resource)) as [response|e]; [|reflexivity].
  cbn -[os_path_join].
  destruct (write_binary _ (content response)) as [[]|e]; [|reflexivity].
  apply IH.
Qed.

(** X13. When every resource is saved, the file of a resource holds the
    body of its response unless a later resource of the list is written to
    the same path: of two resources with the same name, the file keeps the
    content of the later one. *)
Theorem save_resources_last_writer before resource after dir_path trace response :
  Forall (saved dir_path) (before ++ resource :: after) ->
  requests_get (link resource) = Ok response ->
  Forall (fun later =>
            os_path_join os dir_path (name later)
            ≠ os_path_join os dir_path (name resource)) after ->
  files_after
    (save_resources os requests_get write_binary (before ++ resource :: after)
       dir_path trace).2
  !! os_path_join os dir_path (name resource)
  = Some (content response).
Proof.
  intros Hall Hget Hlater. rewrite (save_resources_saved _ _ _ _ _ _ Hall).
  cbn [snd]. rewrite flat_map_app. cbn [flat_map].
  unfold save_events at 2. rewrite Hget.
  rewrite !app_assoc, files_after_app, write_events_other.
  - rewrite <- app_assoc, files_after_app. rewrite foldl_app. cbn [foldl write_event].
    apply lookup_insert_eq.
  - intros content' Hin. apply save_events_event_of in Hin
      as (later & Hin & [Hev | (content'' & Hev)]); [discriminate|].
    injection Hev as Hpath _. rewrite Forall_forall in Hlater.
    now apply (Hlater later Hin).
Qed.

End fetcher_more.

(** ** Pages of the same origin *)

Lemma collect_ext {A B} (f g : A -> result B) l :
  (forall x, f x = g x) -> collect f l = collect g l.
Proof.
  intros Hext. induction l as [|x l IH]; [reflexivity|].
  simpl. now rewrite Hext, IH.
Qed.

Lemma local_resource_same_origin page1 page2 p1 p2 raw :
  urlparse page1 "" = Ok p1 ->
  urlparse page2 "" = Ok p2 ->
  scheme p1 = scheme p2 ->
  netloc p1 = netloc p2 ->
  local_resource page1 raw = local_resource page2 raw.
Proof.
  intros Hp1 Hp2 Hscheme Hnetloc.
  assert (Hfull : get_full_link raw page1 = get_full_link raw page2).
  { unfold get_full_link. rewrite Hp1, Hp2. cbn [fmap result_fmap].
    rewrite !bind_Ok. now rewrite Hscheme, Hnetloc. }
  unfold local_resource. rewrite Hfull.
  destruct (get_full_link raw page2) as [full|e]; [|reflexivity].
  rewrite !bind_Ok.
  assert (Hlocal : is_local_link full page1 = is_local_link full page2).
  { unfold is_local_link. rewrite Hp1, Hp2. cbn [fmap result_fmap].
    now rewrite Hnetloc. }
  now rewrite Hlocal.
Qed.

(** X14. The page URL enters the transformation through its scheme and
    its network location only: for two page URLs of the same origin,
    whatever their paths, queries and fragments, and whatever the host,
    the same resources are found, or the same exception is raised. *)
Theorem search_resources_same_origin (os1 os2 : os_name)
    (get_dir_name1 get_dir_name2 : string -> string) soup page1 page2 p1 p2 :
  urlparse page1 "" = Ok p1 ->
  urlparse page2 "" = Ok p2 ->
  scheme p1 = scheme p2 ->
  netloc p1 = netloc p2 ->
  snd <$> search_resources os1 get_dir_name1 soup page1
  = snd <$> search_resources os2 get_dir_name2 soup page2.
Proof.
  intros Hp1 Hp2 Hscheme Hnetloc.
  rewrite !search_resources_resources. unfold resources_of. f_equal.
  apply collect_ext. intros tag. unfold tag_resource.
  destruct (tag_info soup tag) as [info|]; [|reflexivity].
  unfold info_resource.
  destruct (table_getitem TAGS_LINK_ATTRIBUTES info.1) as [link_attr|e];
    [|reflexivity].
  rewrite !bind_Ok.
  destruct (getitem info.2 link_attr) as [raw|e]; [|reflexivity].
  rewrite !bind_Ok. eapply local_resource_same_origin; eassumption.
Qed.

Lemma search_resources_same_origin_witness :
  snd <$> search_resources posix (fun _ => "post_files")
            [Tag "img" {[ "src" := "a.png" ]} []]
            "https://example.com/blog/post"
  = snd <$> search_resources nt (fun _ => "index_files")
              [Tag "img" {[ "src" := "a.png" ]} []]
              "https://example.com/index.html?lang=en".
Proof.
  apply (search_resources_same_origin posix nt _ _ _ _ _
           (mkParseResult "https" "example.com" "/blog/post" "" "" "")
           (mkParseResult "https" "example.com" "/index.html" "" "lang=en" ""));
    reflexivity.
Defined.

(** ** The whole run *)

Section page.

Context (os : os_name) (get_dir_name : string -> string)
  (requests_get : string -> result Response)
  (write_binary : string -> string -> result unit)
  (response_text : Response -> string)
  (html_parser : string -> BeautifulSoup)
  (prettify : BeautifulSoup -> string).

Local Abbreviation parse_page :=
  (parse_page os get_dir_name requests_get write_binary response_text
     html_parser prettify).
Local Abbreviation transform :=
  (fun page url =>
     search_resources os get_dir_name (html_parser (response_text page)) url).

Lemma parse_page_unfold url dir_path trace :
  parse_page url dir_path trace
  = match requests_get url with
    | Ok page =>
        match transform page url with
        | Ok (soup, resources) =>
            match save_resources os requests_get write_binary resources dir_path
                    (trace ++ [Requested url]) with
            | (Ok _, trace') => (Ok (prettify soup), trace')
            | (Raise e, trace') => (Raise e, trace')
            end
        | Raise e => (Raise e, trace ++ [Requested url])
        end
    | Raise e => (Raise e, trace ++ [Requested url])
    end.
Proof.
  unfold parse_page, mbind, io_bind, get_page, lift_result.
  destruct (requests_get url) as [page|e]; [|reflexivity].
  destruct (search_resources _ _ _ _) as [[soup resources]|e]; [|reflexivity].
  now destruct (save_resources _ _ _ _ _ _) as [[[]|e] trace'].
Qed.

Lemma search_resources_well_named soup page_url soup' resources :
  search_resources os get_dir_name soup page_url = Ok (soup', resources) ->
  Forall (well_named page_url) resources.
Proof.
  unfold search_resources. intros Hrun.
  apply (for_each_invariant
           (fun state => Forall (well_named page_url) state.2)) in Hrun;
    [exact Hrun | | constructor].
  intros resource_tag [s rs] [s' rs'] Hrs Hinner. simpl in *.
  apply (for_each_invariant
           (fun state => Forall (well_named page_url) state.2)) in Hinner;
    [exact Hinner | | exact Hrs].
  intros tag [s1 rs1] [s2 rs2] H1 Hstep. simpl in *.
  eapply process_tag_well_named; eassumption.
Qed.

(** X15. When the request for the page raises, or the transformation of
    its text raises, [parse_page] raises the same exception and the request
    for the page is all that happened: the links are all resolved before
    the first download, so a tag that cannot be processed, wherever it is
    in the page, leaves no resource requested and no file written. *)
Theorem parse_page_raises_early url dir_path trace e :
  (page ← requests_get url; transform page url) = Raise e ->
  parse_page url dir_path trace = (Raise e, trace ++ [Requested url]).
Proof.
  intros Hraise. rewrite parse_page_unfold.
  destruct (requests_get url) as [page|e']; [|now injection Hraise as ->].
  rewrite bind_Ok in Hraise. now rewrite Hraise.
Qed.

(** X16. [parse_page] returns the rendered page if and only if the page
    request returns a response, the transformation of its text returns,
    and every resource it found is saved; what it returns is then the
    rendering of the rewritten tree. *)
Theorem parse_page_returns_iff url dir_path trace html :
  (parse_page url dir_path trace).1 = Ok html
  <-> exists page soup resources,
        requests_get url = Ok page
        /\ transform page url = Ok (soup, resources)
        /\ Forall (saved os requests_get write_binary dir_path) resources
        /\ html = prettify soup.
Proof.
  rewrite parse_page_unfold. split.
  - destruct (requests_get url) as [page|e]; [|discriminate].
    destruct (transform page url) as [[soup resources]|e] eqn:Hsoup;
      [|discriminate].
    pose proof (save_resources_returns_saved os requests_get write_binary
                  resources dir_path (trace ++ [Requested url])) as Hsaved.
    destruct (save_resources _ _ _ _ _ _) as [[[]|e] trace']; [|discriminate].
    intros [= <-]. exists page, soup, resources.
    repeat split; [exact Hsoup | now apply Hsaved].
  - intros (page & soup & resources & -> & -> & Hsaved & ->).
    now rewrite (save_resources_saved _ _ _ _ _ _ Hsaved).
Qed.

(** X17. Whatever the outcome, [parse_page] first requests the page, and
    every later event is the request for a link that is local to the page,
    or the write of a file under [dir_path] whose name is the one
    [create_resource_name] gives for such a link. *)
Theorem parse_page_events url dir_path trace :
  exists events resources,
    (parse_page url dir_path trace).2 = trace ++ Requested url :: events
    /\ Forall (well_named url) resources
    /\ Forall (event_of os dir_path resources) events.
Proof.
  rewrite parse_page_unfold.
  destruct (requests_get url) as [page|e];
    [|exists [], []; now repeat split].
  destruct (transform page url) as [[soup resources]|e] eqn:Hsoup;
    [|exists [], []; now repeat split].
  destruct (save_resources_trace_take os requests_get write_binary
              resources dir_path (trace ++ [Requested url]))
    as (n & Htrace).
  eexists _, resources. split; [|split].
  - destruct (save_resources _ _ _ _ _ _) as [[[]|e] trace'];
      cbn [snd] in *; now rewrite Htrace, <- app_assoc.
  - eapply search_resources_well_named, Hsoup.
  - apply Forall_forall. intros ev (i & Hin & _)%elem_of_take.
    eapply (save_events_event_of os requests_get), list_elem_of_lookup_2, Hin.
Qed.

End page.

Lemma parse_page_raises_early_witness :
  parse_page posix (fun _ => "files") (fun _ => Ok (mkResponse 200 ""))
    (fun _ _ => Ok ()) content
    (fun _ => [Tag "img" {[ "src" := "/a.png" ]} []; Tag "script" ∅ []])
    (fun _ => "") "https://example.com/" "/tmp" []
  = (Raise KeyError, [Requested "https://example.com/"]).
Proof.
  apply (parse_page_raises_early posix (fun _ => "files")
           (fun _ => Ok (mkResponse 200 "")) (fun _ _ => Ok ()) content
           (fun _ => [Tag "img" {[ "src" := "/a.png" ]} []; Tag "script" ∅ []])
           (fun _ => "") "https://example.com/" "/tmp" [] KeyError).
  vm_compute. reflexivity.
Defined.

Lemma save_resources_last_writer_witness :
  files_after
    (save_resources posix (fun url => Ok (mkResponse 200 url)) (fun _ _ => Ok ())
       [mkResource "https://example.com/a?x=1" "example-com-a.html";
        mkResource "https://example.com/a?x=2" "example-com-a.html"]
       "/tmp" []).2
  !! "/tmp/example-com-a.html"
  = Some "https://example.com/a?x=2".
Proof.
  apply (save_resources_last_writer posix (fun url => Ok (mkResponse 200 url))
           (fun _ _ => Ok ())
           [mkResource "https://example.com/a?x=1" "example-com-a.html"]
           (mkResource "https://example.com/a?x=2" "example-com-a.html")
           [] "/tmp" [] (mkResponse 200 "https://example.com/a?x=2")).
  - repeat constructor; eexists; split; reflexivity.
  - reflexivity.
  - constructor.
Defined.

Lemma search_resources_keeps_structure_witness :
  erase_attrs <$>
    [Tag "html" ∅
       [Tag "img" {["src" := "example-com-blog-post_files/example-com-images-a.png"]} [];
        Tag "script" {["src" := "https://cdn.other.com/x.js"]} [];
        Tag "link" {["href" := "example-com-blog-post_files/example-com-style.css"]} []]]
  = erase_attrs <$>
      [Tag "html" ∅
         [Tag "img" {["src" := "/images/a.png"]} [];
          Tag "script" {["src" := "https://cdn.other.com/x.js"]} [];
          Tag "link" {["href" := "style.css"]} []]].
Proof.
  apply (search_resources_keeps_structure posix
           (fun _ => "example-com-blog-post_files") _
           "https://example.com/blog/post" _
           [mkResource "https://example.com/images/a.png"
              "example-com-images-a.png";
            mkResource "https://example.com/style.css"
              "example-com-style.css"]).
  vm_compute. reflexivity.
Defined.

Lemma search_resources_leaves_others_witness :
  tag_info
    [Tag "html" ∅
       [Tag "img" {["src" := "example-com-blog-post_files/example-com-images-a.png"]} [];
        Tag "script" {["src" := "https://cdn.other.com/x.js"]} [];
        Tag "link" {["href" := "example-com-blog-post_files/example-com-style.css"]} []]]
    [0%nat; 1%nat]
  = Some ("script", {["src" := "https://cdn.other.com/x.js"]}).
Proof.
  refine (proj1 (search_resources_leaves_others posix
                   (fun _ => "example-com-blog-post_files")
                   [Tag "html" ∅
                      [Tag "img" {["src" := "/images/a.png"]} [];
                       Tag "script" {["src" := "https://cdn.other.com/x.js"]} [];
                       Tag "link" {["href" := "style.css"]} []]]
                   "https://example.com/blog/post" _
                   [mkResource "https://example.com/images/a.png"
                      "example-com-images-a.png";
                    mkResource "https://example.com/style.css"
                      "example-com-style.css"] _
                   [0%nat; 1%nat] "script"
                   {["src" := "https://cdn.other.com/x.js"]} _) _).
  - vm_compute. reflexivity.
  - vm_compute. reflexivity.
  - intros resource. vm_compute. discriminate.
Defined.

Lemma search_resources_empty_link_witness :
  exists resource_name,
    tag_info [Tag "link" {["href" := "files/example-com-.html"]} []] [0%nat]
    = Some ("link",
            <["href" := os_path_join posix "files" resource_name]>
              {["href" := ""]})
    /\ mkResource (DOMAIN_ADDRESS "https" "example.com") resource_name
       ∈ [mkResource "https://example.com" "example-com-.html"].
Proof.
  apply (search_resources_empty_link posix (fun _ => "files")
           [Tag "link" {["href" := ""]} []] "https://example.com/blog/post"
           (mkParseResult "https" "example.com" "/blog/post" "" "" "")
           [Tag "link" {["href" := "files/example-com-.html"]} []]
           [mkResource "https://example.com" "example-com-.html"]
           [0%nat] "link" {["href" := ""]} "href").
  - split; [reflexivity|]. split; [right; reflexivity | discriminate].
  - vm_compute. reflexivity.
  - vm_compute. reflexivity.
  - reflexivity.
  - vm_compute. reflexivity.
Defined.

(** X18. A page without [img], [link] and [script] tags is returned as it
    was parsed, and the request for the page is the only event.  With no
    tag to process, [get_full_link] and [is_local_link] are not called: the
    page URL goes to [get_dir_name] only, so no condition on it is needed
    here. *)
Theorem parse_page_no_resources (os : os_name) (get_dir_name : string -> string)
    (requests_get : string -> result Response)
    (write_binary : string -> string -> result unit)
    (response_text : Response -> string) (html_parser : string -> BeautifulSoup)
    (prettify : BeautifulSoup -> string) url dir_path trace page :
  requests_get url = Ok page ->
  visit_order (html_parser (response_text page)) = [] ->
  parse_page os get_dir_name requests_get write_binary response_text html_parser
    prettify url dir_path trace
  = (Ok (prettify (html_parser (response_text page))), trace ++ [Requested url]).
Proof.
  intros Hget Hnone. rewrite parse_page_unfold, Hget.
  apply app_eq_nil in Hnone as [Himg [Hlink Hscript]%app_eq_nil].
  unfold search_resources.
  change (TAGS_LINK_ATTRIBUTES.*1) with ["img"; "link"; "script"].
  cbn [for_each]. rewrite Himg. cbn [for_each]. rewrite bind_Ok, Hlink.
  cbn [for_each]. rewrite bind_Ok, Hscript. reflexivity.
Qed.

Lemma parse_page_no_resources_witness :
  parse_page posix (fun _ => "files")
    (fun _ => Ok (mkResponse 200 "<p>text</p>")) (fun _ _ => Raise OSError)
    content (fun html => [Tag "p" ∅ [NavigableString "text"]])
    (fun _ => "<p>text</p>") "//[" "/tmp" []
  = (Ok "<p>text</p>", [Requested "//["]).
Proof.
  apply (parse_page_no_resources posix (fun _ => "files")
           (fun _ => Ok (mkResponse 200 "<p>text</p>")) (fun _ _ => Raise OSError)
           content (fun html => [Tag "p" ∅ [NavigableString "text"]])
           (fun _ => "<p>text</p>") "//[" "/tmp" [] (mkResponse 200 "<p>text</p>"));
    reflexivity.
Defined.
